(** * OmniRecord: overlay geometry, compositor and recording session

    A shallow embedding of the TypeScript sources

      - [types.ts], [constants.ts]
      - [hooks/useDraggableResizable.tsx]   (gesture controller)
      - [utils/compositor.ts]               (class [VideoCompositor])
      - [App.tsx]                           (recording session, config store)

    JavaScript [number]s are modelled by the rationals [Q]: every value the
    program manipulates here is obtained from finite inputs by [+], [-],
    [*], [/], [Math.max], [Math.min] and comparisons.  Equality of computed
    numbers is therefore [Qeq] (written [==]); [/] is only meaningful for a
    non-zero divisor. *)

From Stdlib Require Import QArith Qminmax Lqa List String Bool Arith Lia.
Import ListNotations.

Open Scope Q_scope.

(** ** Numbers *)

(** JavaScript [a > b] on numbers. *)
Definition Qgtb (a b : Q) : bool :=
  match a ?= b with
  | Gt => true
  | _ => false
  end.

(** [Math.max(a, b)] and [Math.min(a, b)]. *)
Definition Math_max (a b : Q) : Q := Qmax a b.
Definition Math_min (a b : Q) : Q := Qmin a b.

(** ** types.ts *)

Inductive Shape : Type := circle | rectangle.

Record Position : Type := mkPosition { x : Q; y : Q }.

Record Size : Type := mkSize { width : Q; height : Q }.

Record OverlayConfig : Type := mkOverlayConfig {
  shape : Shape;
  position : Position;
  size : Size;
  isVisible : bool;
  borderColor : string;
  borderWidth : Q;
  zoomLevel : Q
}.

(** ** constants.ts *)

Definition INITIAL_OVERLAY_CONFIG : OverlayConfig :=
  {| shape := circle;
     position := {| x := 50; y := 50 |};
     size := {| width := 200; height := 200 |};
     isVisible := true;
     borderColor := "#3b82f6"%string;
     borderWidth := 4;
     zoomLevel := 1 |}.

Definition MIN_SIZE : Q := 100.
Definition MAX_SIZE : Q := 600.

(** ** hooks/useDraggableResizable.tsx *)

(** The part of a [DOMRect] the hook reads. *)
Record DOMRect : Type := mkDOMRect {
  rect_left : Q;
  rect_top : Q;
  rect_width : Q;
  rect_height : Q
}.

Record MouseEvent : Type := mkMouseEvent { clientX : Q; clientY : Q }.

Inductive GestureType : Type := drag | resize.

Module Hook.

(** [stateRef.current]. *)
Record State : Type := mkState {
  position : Position;
  size : Size;
  isDragging : bool;
  isResizing : bool;
  dragOffset : Position;
  containerRect : option DOMRect
}.

(** What one handler invocation does to the outside: the React setters
    it calls and the [onUpdate] notification sent to the parent. *)
Record Effects : Type := mkEffects {
  setPosition : option Position;
  setSize : option Size;
  onUpdate : option (Position * Size)
}.

Definition no_effects : Effects :=
  {| setPosition := None; setSize := None; onUpdate := None |}.

(** The initial [stateRef] of the hook. *)
Definition init (initialPosition : Position) (initialSize : Size) : State :=
  {| position := initialPosition;
     size := initialSize;
     isDragging := false;
     isResizing := false;
     dragOffset := {| x := 0; y := 0 |};
     containerRect := None |}.

Definition set_containerRect (st : State) (r : option DOMRect) : State :=
  {| position := position st; size := size st;
     isDragging := isDragging st; isResizing := isResizing st;
     dragOffset := dragOffset st; containerRect := r |}.

(** "Use cached rect or get new one": [containerRef] is [None] when
    [containerRef.current] is null, and otherwise carries the rectangle
    [getBoundingClientRect()] reports.  A [DOMRect] is an object, hence
    truthy whatever its dimensions are. *)
Definition resolveRect (containerRef : option DOMRect) (st : State)
  : option DOMRect :=
  match containerRect st with
  | Some r => Some r
  | None => containerRef
  end.

Definition handleMouseMove (containerRef : option DOMRect)
    (st : State) (e : MouseEvent) : State * Effects :=
  if negb (isDragging st) && negb (isResizing st) then (st, no_effects)
  else
    match resolveRect containerRef st with
    | None => (st, no_effects)
    | Some rect =>
      let st := set_containerRect st (Some rect) in
      if isDragging st then
        let newX := clientX e - x (dragOffset st) in
        let newY := clientY e - y (dragOffset st) in
        let newX :=
          Math_max 0 (Math_min newX (rect_width rect - width (size st))) in
        let newY :=
          Math_max 0 (Math_min newY (rect_height rect - height (size st))) in
        let newPos := {| x := newX; y := newY |} in
        ({| position := newPos; size := size st;
            isDragging := isDragging st; isResizing := isResizing st;
            dragOffset := dragOffset st;
            containerRect := containerRect st |},
         {| setPosition := Some newPos; setSize := None;
            onUpdate := Some (newPos, size st) |})
      else if isResizing st then
        let absoluteLeft := rect_left rect + x (position st) in
        let absoluteTop := rect_top rect + y (position st) in
        let newWidth := clientX e - absoluteLeft in
        let newHeight := clientY e - absoluteTop in
        let newWidth := Math_max MIN_SIZE (Math_min newWidth MAX_SIZE) in
        let newHeight := Math_max MIN_SIZE (Math_min newHeight MAX_SIZE) in
        let newWidth :=
          if Qgtb (x (position st) + newWidth) (rect_width rect)
          then rect_width rect - x (position st) else newWidth in
        let newHeight :=
          if Qgtb (y (position st) + newHeight) (rect_height rect)
          then rect_height rect - y (position st) else newHeight in
        let newSize := {| width := newWidth; height := newHeight |} in
        ({| position := position st; size := newSize;
            isDragging := isDragging st; isResizing := isResizing st;
            dragOffset := dragOffset st;
            containerRect := containerRect st |},
         {| setPosition := None; setSize := Some newSize;
            onUpdate := Some (position st, newSize) |})
      else (st, no_effects)
    end.

Definition handleMouseUp (st : State) : State :=
  {| position := position st; size := size st;
     isDragging := false; isResizing := false;
     dragOffset := dragOffset st; containerRect := None |}.

Definition handleMouseDown (containerRef : option DOMRect)
    (st : State) (e : MouseEvent) (type : GestureType) : State :=
  match containerRef with
  | None => st
  | Some rect =>
    match type with
    | drag =>
      {| position := position st; size := size st;
         isDragging := true; isResizing := isResizing st;
         dragOffset := {| x := clientX e - x (position st);
                          y := clientY e - y (position st) |};
         containerRect := Some rect |}
    | resize =>
      {| position := position st; size := size st;
         isDragging := isDragging st; isResizing := true;
         dragOffset := dragOffset st;
         containerRect := Some rect |}
    end
  end.

End Hook.

(** ** utils/compositor.ts *)

Record Rect : Type := mkRect { rect_x : Q; rect_y : Q; rect_w : Q; rect_h : Q }.

(** The two [HTMLVideoElement]s handed to [start]. *)
Inductive Source : Type := screenVideo | cameraVideo.

(** What the draw routine reads from a video element.  [videoWidth] and
    [videoHeight] are integers (Web IDL [unsigned long]). *)
Record Video : Type := mkVideo {
  readyState : nat;
  videoWidth : Z;
  videoHeight : Z
}.

(** A full ellipse: centre and radii (the source passes rotation [0] and
    the angles [0] and [2 * Math.PI]). *)
Inductive Subpath : Type :=
| EllipseArc (centerX centerY radiusX radiusY : Q).

Definition Path : Type := list Subpath.

(** The calls the draw routine makes on its [CanvasRenderingContext2D]. *)
Inductive Cmd : Type :=
| SetFillStyle (style : string)
| FillRect (r : Rect)
| DrawImage (src : Source) (dst : Rect)
| Save
| BeginPath
| Ellipse (centerX centerY radiusX radiusY : Q)
| Clip
| DrawImageCrop (src : Source) (crop dst : Rect)
| SetStrokeStyle (style : string)
| SetLineWidth (w : Q)
| Stroke
| StrokeRect (r : Rect)
| Restore.

(** What reaches the drawing surface. *)
Inductive Paint : Type :=
| PFill (style : string) (r : Rect) (clip : list Path)
| PImage (src : Source) (crop : option Rect) (dst : Rect) (clip : list Path)
| PStrokePath (p : Path) (style : string) (w : Q) (clip : list Path)
| PStrokeRect (r : Rect) (style : string) (w : Q) (clip : list Path).

Module Canvas.

(** The drawing state that [save()] pushes and [restore()] pops; the
    current path is not part of it. *)
Record DrawingState : Type := mkDrawingState {
  fillStyle : string;
  strokeStyle : string;
  lineWidth : Q;
  clip : list Path
}.

Record Context2D : Type := mkContext2D {
  current : DrawingState;
  stack : list DrawingState;
  path : Path
}.

Definition default_state : DrawingState :=
  {| fillStyle := "#000000"%string; strokeStyle := "#000000"%string;
     lineWidth := 1; clip := [] |}.

(** A context as [getContext('2d')] returns it, and as assigning
    [canvas.width] or [canvas.height] leaves it. *)
Definition fresh : Context2D :=
  {| current := default_state; stack := []; path := [] |}.

Definition with_current (c : Context2D) (d : DrawingState) : Context2D :=
  {| current := d; stack := stack c; path := path c |}.

Definition exec (k : Cmd) (cp : Context2D * list Paint)
  : Context2D * list Paint :=
  let (c, out) := cp in
  let d := current c in
  match k with
  | SetFillStyle s =>
    (with_current c {| fillStyle := s; strokeStyle := strokeStyle d;
                       lineWidth := lineWidth d; clip := clip d |}, out)
  | SetStrokeStyle s =>
    (with_current c {| fillStyle := fillStyle d; strokeStyle := s;
                       lineWidth := lineWidth d; clip := clip d |}, out)
  | SetLineWidth w =>
    (with_current c {| fillStyle := fillStyle d;
                       strokeStyle := strokeStyle d;
                       lineWidth := w; clip := clip d |}, out)
  | Save =>
    ({| current := d; stack := d :: stack c; path := path c |}, out)
  | Restore =>
    match stack c with
    | [] => (c, out)
    | d' :: rest =>
      ({| current := d'; stack := rest; path := path c |}, out)
    end
  | BeginPath =>
    ({| current := d; stack := stack c; path := [] |}, out)
  | Ellipse cx cy rx ry =>
    ({| current := d; stack := stack c;
        path := path c ++ [EllipseArc cx cy rx ry] |}, out)
  | Clip =>
    (with_current c {| fillStyle := fillStyle d;
                       strokeStyle := strokeStyle d;
                       lineWidth := lineWidth d;
                       clip := path c :: clip d |}, out)
  | FillRect r => (c, out ++ [PFill (fillStyle d) r (clip d)])
  | DrawImage src dst => (c, out ++ [PImage src None dst (clip d)])
  | DrawImageCrop src crop dst =>
    (c, out ++ [PImage src (Some crop) dst (clip d)])
  | Stroke =>
    (c, out ++ [PStrokePath (path c) (strokeStyle d) (lineWidth d) (clip d)])
  | StrokeRect r =>
    (c, out ++ [PStrokeRect r (strokeStyle d) (lineWidth d) (clip d)])
  end.

Definition run (ks : list Cmd) (cp : Context2D * list Paint)
  : Context2D * list Paint :=
  fold_left (fun acc k => exec k acc) ks cp.

End Canvas.

Module VideoCompositor.

(** The compositor object together with the part of the browser it
    talks to: the canvas dimensions and context, and the pending
    [requestAnimationFrame] callbacks (all of them the [draw] closure
    of [start]).  Handles are non-zero, hence truthy. *)
Record State : Type := mkState {
  canvas_width : Z;
  canvas_height : Z;
  ctx : Canvas.Context2D;
  animationFrameId : option positive;
  isActive : bool;
  raf_next : positive;
  raf_pending : list positive
}.

(** What one invocation of [draw] observes of its surroundings. *)
Record Env : Type := mkEnv {
  screen : Video;
  camera : Video;
  getConfig : OverlayConfig
}.

(** [this.animationFrameId = requestAnimationFrame(draw)]. *)
Definition requestAnimationFrame_draw (s : State) : State :=
  {| canvas_width := canvas_width s; canvas_height := canvas_height s;
     ctx := ctx s;
     animationFrameId := Some (raf_next s);
     isActive := isActive s;
     raf_next := Pos.succ (raf_next s);
     raf_pending := raf_pending s ++ [raf_next s] |}.

Definition cancelAnimationFrame (h : positive) (s : State) : State :=
  {| canvas_width := canvas_width s; canvas_height := canvas_height s;
     ctx := ctx s;
     animationFrameId := animationFrameId s;
     isActive := isActive s;
     raf_next := raf_next s;
     raf_pending := filter (fun h' => negb (Pos.eqb h' h)) (raf_pending s) |}.

Definition set_isActive (b : bool) (s : State) : State :=
  {| canvas_width := canvas_width s; canvas_height := canvas_height s;
     ctx := ctx s;
     animationFrameId := animationFrameId s;
     isActive := b;
     raf_next := raf_next s;
     raf_pending := raf_pending s |}.

Section Start.

(** The [containerWidth] and [containerHeight] arguments of [start]. *)
Variables containerWidth containerHeight : Q.

(** Step 3 of [draw], "Draw Camera Overlay": the body of the
    [if (config.isVisible && cameraVideo.readyState >= 2)]. *)
Definition overlay_cmds (config : OverlayConfig) (cameraV : Video)
    (screenWidth screenHeight : Z) : list Cmd :=
  let scaleX := inject_Z screenWidth / containerWidth in
  let scaleY := inject_Z screenHeight / containerHeight in
  let camX := x (position config) * scaleX in
  let camY := y (position config) * scaleY in
  let camW := width (size config) * scaleX in
  let camH := height (size config) * scaleY in
  [Save]
  ++ match shape config with
     | circle =>
       let centerX := camX + camW / 2 in
       let centerY := camY + camH / 2 in
       let radiusX := camW / 2 in
       let radiusY := camH / 2 in
       [BeginPath; Ellipse centerX centerY radiusX radiusY; Clip]
     | rectangle => []
     end
  ++ (let vidW := inject_Z (videoWidth cameraV) in
      let vidH := inject_Z (videoHeight cameraV) in
      let zoom := Math_max 1 (zoomLevel config) in
      let srcW := vidW / zoom in
      let srcH := vidH / zoom in
      let srcX := (vidW - srcW) / 2 in
      let srcY := (vidH - srcH) / 2 in
      [DrawImageCrop cameraVideo
         {| rect_x := srcX; rect_y := srcY; rect_w := srcW; rect_h := srcH |}
         {| rect_x := camX; rect_y := camY; rect_w := camW; rect_h := camH |}])
  ++ (if Qgtb (borderWidth config) 0 then
        [SetStrokeStyle (borderColor config);
         SetLineWidth (borderWidth config * scaleX)]
        ++ match shape config with
           | circle => [Stroke]
           | rectangle =>
             [StrokeRect {| rect_x := camX; rect_y := camY;
                            rect_w := camW; rect_h := camH |}]
           end
      else [])
  ++ [Restore].

(** The context calls of one composed frame (steps "Clear", 2 and 3). *)
Definition frame_cmds (e : Env) : list Cmd :=
  let screenWidth := videoWidth (screen e) in
  let screenHeight := videoHeight (screen e) in
  let full := {| rect_x := 0; rect_y := 0;
                 rect_w := inject_Z screenWidth;
                 rect_h := inject_Z screenHeight |} in
  [SetFillStyle "#000"%string; FillRect full; DrawImage screenVideo full]
  ++ (if isVisible (getConfig e) && (2 <=? readyState (camera e))%nat
      then overlay_cmds (getConfig e) (camera e) screenWidth screenHeight
      else []).

(** The closure [draw]; the second component is what this invocation
    painted on the surface. *)
Definition draw (e : Env) (s : State) : State * list Paint :=
  if negb (isActive s) then (s, [])
  else if (readyState (screen e) <? 2)%nat
  then (requestAnimationFrame_draw s, [])
  else
    let screenWidth := videoWidth (screen e) in
    let screenHeight := videoHeight (screen e) in
    let resized :=
      negb (Z.eqb (canvas_width s) screenWidth)
      || negb (Z.eqb (canvas_height s) screenHeight) in
    let c0 := if resized then Canvas.fresh else ctx s in
    let (c1, out) := Canvas.run (frame_cmds e) (c0, []) in
    (requestAnimationFrame_draw
       {| canvas_width := if resized then screenWidth else canvas_width s;
          canvas_height := if resized then screenHeight else canvas_height s;
          ctx := c1;
          animationFrameId := animationFrameId s;
          isActive := isActive s;
          raf_next := raf_next s;
          raf_pending := raf_pending s |},
     out).

Definition start (e : Env) (s : State) : State * list Paint :=
  draw e (set_isActive true s).

(** One animation frame of the browser: the callbacks pending at its
    beginning are run in order; those they request wait for the next
    frame.  The result also gives the number of [draw] invocations. *)
Definition animationFrame (e : Env) (s : State)
  : State * list Paint * nat :=
  let handles := raf_pending s in
  let s0 :=
    {| canvas_width := canvas_width s; canvas_height := canvas_height s;
       ctx := ctx s;
       animationFrameId := animationFrameId s;
       isActive := isActive s;
       raf_next := raf_next s;
       raf_pending := [] |} in
  (fold_left
     (fun acc _ => let (s1, out1) := draw e (fst acc) in
                   (s1, snd acc ++ out1))
     handles (s0, []),
   List.length handles).

End Start.

Definition stop (s : State) : State :=
  let s := set_isActive false s in
  match animationFrameId s with
  | Some h => cancelAnimationFrame h s
  | None => s
  end.

(** [new VideoCompositor(canvas)] on a canvas of the given dimensions,
    in a browser whose next animation-frame handle is [next]. *)
Definition new (w h : Z) (next : positive) : State :=
  {| canvas_width := w; canvas_height := h;
     ctx := Canvas.fresh;
     animationFrameId := None;
     isActive := false;
     raf_next := next;
     raf_pending := [] |}.

End VideoCompositor.

(** ** App.tsx *)

Definition RECORDING_MIME_TYPE : string := "video/webm; codecs=vp9".

(** A [Blob]: its bytes and its MIME type. *)
Record Blob : Type := mkBlob {
  blob_bytes : list Byte.byte;
  blob_type : string
}.

Definition blob_size (b : Blob) : nat := List.length (blob_bytes b).

(** [new Blob(parts, { type })]. *)
Definition new_Blob (parts : list Blob) (type : string) : Blob :=
  {| blob_bytes := List.concat (map blob_bytes parts); blob_type := type |}.

Module MediaRecorder.

Inductive RecordingState : Type := inactive | recording | paused.

(** The events a recorder fires at its handlers. *)
Inductive Event : Type :=
| dataavailable (data : Blob)
| stopped.

(** The interface of the browser's [MediaRecorder] as [App.tsx] relies
    on it: its [state], the encoded data gathered but not yet
    delivered, and the events queued for dispatch.  [stop()] on a
    recorder that is not inactive makes it inactive at once and queues
    a [dataavailable] event with the gathered data followed by a
    [stop] event. *)
Record t : Type := mk {
  state : RecordingState;
  gathered : list Byte.byte;
  tasks : list Event
}.

Definition new : t := {| state := inactive; gathered := []; tasks := [] |}.

Definition start (r : t) : t :=
  match state r with
  | inactive => {| state := recording; gathered := []; tasks := tasks r |}
  | _ => r
  end.

Definition stop (r : t) : t :=
  match state r with
  | inactive => r
  | _ =>
    {| state := inactive; gathered := [];
       tasks := tasks r
                ++ [dataavailable {| blob_bytes := gathered r;
                                     blob_type := RECORDING_MIME_TYPE |};
                    stopped] |}
  end.

(** The encoder produces data while the recorder records; without a
    timeslice it is held back until the recorder stops. *)
Definition encode (data : list Byte.byte) (r : t) : t :=
  match state r with
  | recording =>
    {| state := recording; gathered := gathered r ++ data; tasks := tasks r |}
  | _ => r
  end.

Definition is_inactive (r : t) : bool :=
  match state r with
  | inactive => true
  | _ => false
  end.

End MediaRecorder.

Module App.

(** A recorder with the [chunks] array both of its handlers close
    over. *)
Record Recording : Type := mkRecording {
  recorder : MediaRecorder.t;
  chunks : list Blob
}.

(** The component state and refs the recording session and the
    configuration store consist of.  [mediaRecorderRef] is
    [mediaRecorderRef.current] with the recorder's handlers. *)
Record State : Type := mkState {
  isRecording : bool;
  recordedBlob : option Blob;
  overlayConfig : OverlayConfig;
  error : option string;
  mediaRecorderRef : option Recording
}.

Definition init : State :=
  {| isRecording := false;
     recordedBlob := None;
     overlayConfig := INITIAL_OVERLAY_CONFIG;
     error := None;
     mediaRecorderRef := None |}.

Definition set_mediaRecorderRef (r : option Recording) (s : State) : State :=
  {| isRecording := isRecording s; recordedBlob := recordedBlob s;
     overlayConfig := overlayConfig s; error := error s;
     mediaRecorderRef := r |}.

(** The part of [stopAllStreams] that acts on this state. *)
Definition stopAllStreams (s : State) : State :=
  {| isRecording := false; recordedBlob := recordedBlob s;
     overlayConfig := overlayConfig s; error := error s;
     mediaRecorderRef := mediaRecorderRef s |}.

(** [recorder.ondataavailable]. *)
Definition ondataavailable (data : Blob) (chunks : list Blob) : list Blob :=
  if (0 <? blob_size data)%nat then chunks ++ [data] else chunks.

(** [recorder.onstop]. *)
Definition onstop (chunks : list Blob) (s : State) : State :=
  let blob := new_Blob chunks RECORDING_MIME_TYPE in
  stopAllStreams
    {| isRecording := isRecording s; recordedBlob := Some blob;
       overlayConfig := overlayConfig s; error := error s;
       mediaRecorderRef := mediaRecorderRef s |}.

(** [handleStartRecording]; [failure] is the message of the exception
    thrown while the streams, the audio graph or the recorder are set
    up, if any. *)
Definition handleStartRecording (failure : option string) (s : State)
  : State :=
  match failure with
  | Some message =>
    stopAllStreams
      {| isRecording := isRecording s; recordedBlob := None;
         overlayConfig := overlayConfig s;
         error := Some ("Failed to start recording. " ++ message)%string;
         mediaRecorderRef := mediaRecorderRef s |}
  | None =>
    {| isRecording := true; recordedBlob := None;
       overlayConfig := overlayConfig s; error := None;
       mediaRecorderRef :=
         Some {| recorder := MediaRecorder.start MediaRecorder.new;
                 chunks := [] |} |}
  end.

Definition handleStopRecording (s : State) : State :=
  match mediaRecorderRef s with
  | Some r =>
    if negb (MediaRecorder.is_inactive (recorder r))
    then set_mediaRecorderRef
           (Some {| recorder := MediaRecorder.stop (recorder r);
                    chunks := chunks r |}) s
    else s
  | None => s
  end.

(** The encoder of the session's recorder produces data. *)
Definition encoded (data : list Byte.byte) (s : State) : State :=
  match mediaRecorderRef s with
  | Some r =>
    set_mediaRecorderRef
      (Some {| recorder := MediaRecorder.encode data (recorder r);
               chunks := chunks r |}) s
  | None => s
  end.

(** The recorder fires an event: the handler registered for it runs. *)
Definition dispatch (ev : MediaRecorder.Event) (s : State) : State :=
  match mediaRecorderRef s with
  | Some r =>
    match ev with
    | MediaRecorder.dataavailable data =>
      set_mediaRecorderRef
        (Some {| recorder := recorder r;
                 chunks := ondataavailable data (chunks r) |}) s
    | MediaRecorder.stopped => onstop (chunks r) s
    end
  | None => s
  end.

(** The event loop delivers the queued events of the recorder, in
    order. *)
Definition runTasks (s : State) : State :=
  match mediaRecorderRef s with
  | Some r =>
    let q := MediaRecorder.tasks (recorder r) in
    let r0 := {| recorder :=
                   {| MediaRecorder.state := MediaRecorder.state (recorder r);
                      MediaRecorder.gathered :=
                        MediaRecorder.gathered (recorder r);
                      MediaRecorder.tasks := [] |};
                 chunks := chunks r |} in
    fold_left (fun acc ev => dispatch ev acc) q
              (set_mediaRecorderRef (Some r0) s)
  | None => s
  end.

Definition updateOverlayConfig (pos : Position) (size : Size) (s : State)
  : State :=
  let prev := overlayConfig s in
  {| isRecording := isRecording s; recordedBlob := recordedBlob s;
     overlayConfig :=
       {| shape := shape prev; position := pos; size := size;
          isVisible := isVisible prev; borderColor := borderColor prev;
          borderWidth := borderWidth prev; zoomLevel := zoomLevel prev |};
     error := error s;
     mediaRecorderRef := mediaRecorderRef s |}.

(** The control surface's [onWidthChange]. *)
Definition onWidthChange (w : Q) (prev : OverlayConfig) : OverlayConfig :=
  {| shape := shape prev; position := position prev; size := size prev;
     isVisible := isVisible prev; borderColor := borderColor prev;
     borderWidth := w; zoomLevel := zoomLevel prev |}.

(** The hook's [onUpdate] is [updateOverlayConfig] (through
    [CameraOverlay]'s [onUpdateConfig]). *)
Definition publish (eff : Hook.Effects) (s : State) : State :=
  match Hook.onUpdate eff with
  | Some (pos, size) => updateOverlayConfig pos size s
  | None => s
  end.

(** The session states of the specification, read off the state. *)
Inductive Phase : Type := Idle | Live | Stopping.

Definition is_stopped (ev : MediaRecorder.Event) : bool :=
  match ev with
  | MediaRecorder.stopped => true
  | _ => false
  end.

(** The finalizations ([onstop] runs) that are due. *)
Definition finalizations (s : State) : nat :=
  match mediaRecorderRef s with
  | Some r =>
    List.length (filter is_stopped (MediaRecorder.tasks (recorder r)))
  | None => O
  end.

Definition phase (s : State) : Phase :=
  match mediaRecorderRef s with
  | None => Idle
  | Some r =>
    if MediaRecorder.is_inactive (recorder r)
    then match finalizations s with
         | O => Idle
         | S _ => Stopping
         end
    else Live
  end.

End App.

(** ** The formulas of the specification *)

(** The drag invariant: the overlay lies inside the container. *)
Definition drag_within_container (r : DOMRect) (p : Position) (s : Size)
  : Prop :=
  (0 <= x p /\ x p <= rect_width r - width s) /\
  (0 <= y p /\ y p <= rect_height r - height s).

(** The resize invariant: both dimensions within the size limits, and the
    overlay does not exceed the container. *)
Definition resize_within_bounds (r : DOMRect) (p : Position) (s : Size)
  : Prop :=
  (MIN_SIZE <= width s /\ width s <= MAX_SIZE) /\
  (MIN_SIZE <= height s /\ height s <= MAX_SIZE) /\
  x p + width s <= rect_width r /\
  y p + height s <= rect_height r.

(** Container-pixel space to surface-pixel space. *)
Definition destination_rect
    (surfaceWidth surfaceHeight containerWidth containerHeight : Q)
    (p : Position) (s : Size) : Rect :=
  let scaleX := surfaceWidth / containerWidth in
  let scaleY := surfaceHeight / containerHeight in
  {| rect_x := x p * scaleX; rect_y := y p * scaleY;
     rect_w := width s * scaleX; rect_h := height s * scaleY |}.

(** Zoom as a centred source crop. *)
Definition zoom_crop (nativeW nativeH zoomLevel : Q) : Rect :=
  let zoom := Qmax 1 zoomLevel in
  let cropW := nativeW / zoom in
  let cropH := nativeH / zoom in
  {| rect_x := (nativeW - cropW) / 2; rect_y := (nativeH - cropH) / 2;
     rect_w := cropW; rect_h := cropH |}.

Definition Rect_eq (a b : Rect) : Prop :=
  rect_x a == rect_x b /\ rect_y a == rect_y b /\
  rect_w a == rect_w b /\ rect_h a == rect_h b.

(** The outline a stroke follows. *)
Inductive Outline : Type :=
| EllipseOutline (centerX centerY radiusX radiusY : Q)
| RectOutline (r : Rect).

Record StrokeOut : Type := mkStrokeOut {
  outline : Outline;
  stroke_color : string;
  stroke_width : Q
}.

(** The outline of a shape in a destination rectangle: the inscribed
    ellipse, or the rectangle itself. *)
Definition shape_outline (sh : Shape) (dst : Rect) : Outline :=
  match sh with
  | circle =>
    EllipseOutline (rect_x dst + rect_w dst / 2) (rect_y dst + rect_h dst / 2)
                   (rect_w dst / 2) (rect_h dst / 2)
  | rectangle => RectOutline dst
  end.

(** The strokes among what was painted. *)
Definition strokes_of (p : Paint) : list StrokeOut :=
  match p with
  | PStrokePath path style w _ =>
    map (fun sp => match sp with
                   | EllipseArc cx cy rx ry =>
                     {| outline := EllipseOutline cx cy rx ry;
                        stroke_color := style; stroke_width := w |}
                   end) path
  | PStrokeRect r style w _ =>
    [{| outline := RectOutline r; stroke_color := style; stroke_width := w |}]
  | _ => []
  end.

Definition strokes (out : list Paint) : list StrokeOut :=
  flat_map strokes_of out.

(** The camera images among what was painted: source crop and
    destination of each. *)
Definition camera_image_of (p : Paint) : list (option Rect * Rect) :=
  match p with
  | PImage cameraVideo crop dst _ => [(crop, dst)]
  | _ => []
  end.

Definition camera_images (out : list Paint) : list (option Rect * Rect) :=
  flat_map camera_image_of out.

(** A frame in which the renderer draws the camera overlay. *)
Definition draws_overlay (e : VideoCompositor.Env) (s : VideoCompositor.State)
  : Prop :=
  VideoCompositor.isActive s = true /\
  (2 <= readyState (VideoCompositor.screen e))%nat /\
  isVisible (VideoCompositor.getConfig e) = true /\
  (2 <= readyState (VideoCompositor.camera e))%nat.

Definition with_config (c : OverlayConfig) (e : VideoCompositor.Env)
  : VideoCompositor.Env :=
  {| VideoCompositor.screen := VideoCompositor.screen e;
     VideoCompositor.camera := VideoCompositor.camera e;
     VideoCompositor.getConfig := c |}.

(** "The inactive flag is observed at the top of the next scheduled
    tick": the animation frame that follows [stop()] still invokes
    [draw]. *)
Definition flag_observed_at_next_tick (containerWidth containerHeight : Q)
    (e : VideoCompositor.Env) (s : VideoCompositor.State) : Prop :=
  (0 < snd (VideoCompositor.animationFrame containerWidth containerHeight e
              (VideoCompositor.stop s)))%nat.

(** The renderer after [start] and a number of animation frames, each
    with its own surroundings. *)
Fixpoint frames (containerWidth containerHeight : Q)
    (es : list VideoCompositor.Env) (s : VideoCompositor.State)
  : VideoCompositor.State :=
  match es with
  | [] => s
  | e :: es' =>
    frames containerWidth containerHeight es'
      (fst (fst (VideoCompositor.animationFrame
                   containerWidth containerHeight e s)))
  end.

(** Between callbacks a started renderer has exactly one frame request
    pending, the one [animationFrameId] names. *)
Definition one_pending (s : VideoCompositor.State) : Prop :=
  VideoCompositor.isActive s = true /\
  exists h, VideoCompositor.raf_pending s = [h]
            /\ VideoCompositor.animationFrameId s = Some h.

(** A segment of nonzero length. *)
Definition nonempty (d : Blob) : bool := (0 <? blob_size d)%nat.

(** The encoder delivers a segment: the recorder fires [dataavailable]. *)
Definition deliver (s : App.State) (d : Blob) : App.State :=
  App.dispatch (MediaRecorder.dataavailable d) s.

(** ** Example inputs *)

(** A container narrower than it is for the default layout: a phone-sized
    viewport. *)
Definition small_container : DOMRect :=
  {| rect_left := 0; rect_top := 0; rect_width := 320; rect_height := 180 |}.

Definition tiny_container : DOMRect :=
  {| rect_left := 0; rect_top := 0; rect_width := 240; rect_height := 135 |}.

Definition zero_container : DOMRect :=
  {| rect_left := 0; rect_top := 0; rect_width := 0; rect_height := 0 |}.

Definition container_800x450 : DOMRect :=
  {| rect_left := 0; rect_top := 0; rect_width := 800; rect_height := 450 |}.

(** The hook as [CameraOverlay] first mounts it. *)
Definition initial_hook : Hook.State :=
  Hook.init (position INITIAL_OVERLAY_CONFIG) (size INITIAL_OVERLAY_CONFIG).

(** The hook with the overlay at (700,400) and of size 200 by 200. *)
Definition hook_700_400 : Hook.State :=
  Hook.init {| x := 700; y := 400 |} {| width := 200; height := 200 |}.

(** A 1920 by 1080 screen share and a 1280 by 720 camera, both decodable,
    with the default configuration, previewed in a container of 800 by
    450. *)
Definition example_env : VideoCompositor.Env :=
  {| VideoCompositor.screen :=
       {| readyState := 4; videoWidth := 1920; videoHeight := 1080 |};
     VideoCompositor.camera :=
       {| readyState := 4; videoWidth := 1280; videoHeight := 720 |};
     VideoCompositor.getConfig := INITIAL_OVERLAY_CONFIG |}.

(** A compositor on a canvas of the default size, started. *)
Definition example_renderer : VideoCompositor.State :=
  fst (VideoCompositor.start 800 450 example_env
         (VideoCompositor.new 300 150 1)).

(** ** Further operations of the sources *)

(** The two [useEffect]s of the hook that follow the props: when
    [initialPosition] (resp. [initialSize]) changes, it is written into
    [stateRef.current]. *)
Definition syncPosition (initialPosition : Position) (st : Hook.State)
  : Hook.State :=
  {| Hook.position := initialPosition; Hook.size := Hook.size st;
     Hook.isDragging := Hook.isDragging st;
     Hook.isResizing := Hook.isResizing st;
     Hook.dragOffset := Hook.dragOffset st;
     Hook.containerRect := Hook.containerRect st |}.

Definition syncSize (initialSize : Size) (st : Hook.State) : Hook.State :=
  {| Hook.position := Hook.position st; Hook.size := initialSize;
     Hook.isDragging := Hook.isDragging st;
     Hook.isResizing := Hook.isResizing st;
     Hook.dragOffset := Hook.dragOffset st;
     Hook.containerRect := Hook.containerRect st |}.

(** The [mousemove] listener run on a sequence of events; the second
    component lists the [onUpdate] notifications, in order. *)
Fixpoint moves (containerRef : option DOMRect) (st : Hook.State)
    (es : list MouseEvent) : Hook.State * list (Position * Size) :=
  match es with
  | [] => (st, [])
  | e :: es' =>
    let (st1, eff) := Hook.handleMouseMove containerRef st e in
    let (st2, ups) := moves containerRef st1 es' in
    (st2, match Hook.onUpdate eff with
          | Some u => u :: ups
          | None => ups
          end)
  end.

(** The clipping region of each camera image among what was painted. *)
Definition camera_clip_of (p : Paint) : list (list Path) :=
  match p with
  | PImage cameraVideo _ _ clip => [clip]
  | _ => []
  end.

Definition camera_clips (out : list Paint) : list (list Path) :=
  flat_map camera_clip_of out.

(** The whole surface of a frame, and its base layer: opaque black, then
    the screen frame stretched over the surface. *)
Definition full_surface (e : VideoCompositor.Env) : Rect :=
  {| rect_x := 0; rect_y := 0;
     rect_w := inject_Z (videoWidth (VideoCompositor.screen e));
     rect_h := inject_Z (videoHeight (VideoCompositor.screen e)) |}.

Definition base_layer (e : VideoCompositor.Env) (clip : list Path)
  : list Paint :=
  [PFill "#000"%string (full_surface e) clip;
   PImage screenVideo None (full_surface e) clip].

(** A renderer with exactly one frame request pending, whose handle the
    browser will not hand out again. *)
Definition one_fresh_pending (s : VideoCompositor.State) : Prop :=
  VideoCompositor.isActive s = true /\
  exists h, VideoCompositor.raf_pending s = [h]
            /\ VideoCompositor.animationFrameId s = Some h
            /\ (h < VideoCompositor.raf_next s)%positive.

(** No clipping region is set and no drawing state is saved. *)
Definition unclipped (s : VideoCompositor.State) : Prop :=
  Canvas.stack (VideoCompositor.ctx s) = []
  /\ Canvas.clip (Canvas.current (VideoCompositor.ctx s)) = [].

(** The remaining handlers [App] passes to the control surface, each a
    functional update of the configuration. *)
Definition onToggleShape (prev : OverlayConfig) : OverlayConfig :=
  {| shape := match shape prev with
              | circle => rectangle
              | rectangle => circle
              end;
     position := position prev; size := size prev;
     isVisible := isVisible prev; borderColor := borderColor prev;
     borderWidth := borderWidth prev; zoomLevel := zoomLevel prev |}.

Definition onToggleCamera (prev : OverlayConfig) : OverlayConfig :=
  {| shape := shape prev; position := position prev; size := size prev;
     isVisible := negb (isVisible prev); borderColor := borderColor prev;
     borderWidth := borderWidth prev; zoomLevel := zoomLevel prev |}.

Definition onColorChange (color : string) (prev : OverlayConfig)
  : OverlayConfig :=
  {| shape := shape prev; position := position prev; size := size prev;
     isVisible := isVisible prev; borderColor := color;
     borderWidth := borderWidth prev; zoomLevel := zoomLevel prev |}.

Definition onZoomChange (zoom : Q) (prev : OverlayConfig) : OverlayConfig :=
  {| shape := shape prev; position := position prev; size := size prev;
     isVisible := isVisible prev; borderColor := borderColor prev;
     borderWidth := borderWidth prev; zoomLevel := zoom |}.

(** [setOverlayConfig(prev => f(prev))]. *)
Definition setOverlayConfig (f : OverlayConfig -> OverlayConfig)
    (s : App.State) : App.State :=
  {| App.isRecording := App.isRecording s;
     App.recordedBlob := App.recordedBlob s;
     App.overlayConfig := f (App.overlayConfig s);
     App.error := App.error s;
     App.mediaRecorderRef := App.mediaRecorderRef s |}.

(** The encoder of the session's recorder produces its output piece by
    piece. *)
Definition encoded_all (ds : list (list Byte.byte)) (s : App.State)
  : App.State :=
  fold_left (fun acc d => App.encoded d acc) ds s.

(** ** components/ControlBar.tsx *)

Module ControlBar.

(** The controls the bar renders, left to right. *)
Inductive Control : Type :=
| StartButton
| StopButton
| CameraToggle
| ShapeToggle (disabled : bool)
| ColorInput (value : string)
| WidthRange (value : Q)
| ZoomRange (value : Q)
| DownloadButton.

Record Props : Type := mkProps {
  isRecording : bool;
  shape : Shape;
  isCameraOn : bool;
  hasRecordedVideo : bool;
  borderColor : string;
  borderWidth : Q;
  zoomLevel : Q
}.

Definition render (p : Props) : list Control :=
  [if negb (isRecording p) then StartButton else StopButton]
  ++ [CameraToggle; ShapeToggle (negb (isCameraOn p))]
  ++ (if isCameraOn p
      then [ColorInput (borderColor p); WidthRange (borderWidth p);
            ZoomRange (zoomLevel p)]
      else [])
  ++ (if hasRecordedVideo p && negb (isRecording p)
      then [DownloadButton]
      else []).

End ControlBar.

(** The props [App] renders the control bar with. *)
Definition controlBarProps (s : App.State) : ControlBar.Props :=
  {| ControlBar.isRecording := App.isRecording s;
     ControlBar.shape := shape (App.overlayConfig s);
     ControlBar.isCameraOn := isVisible (App.overlayConfig s);
     ControlBar.hasRecordedVideo :=
       match App.recordedBlob s with
       | Some _ => true
       | None => false
       end;
     ControlBar.borderColor := borderColor (App.overlayConfig s);
     ControlBar.borderWidth := borderWidth (App.overlayConfig s);
     ControlBar.zoomLevel := zoomLevel (App.overlayConfig s) |}.

Definition controls (s : App.State) : list ControlBar.Control :=
  ControlBar.render (controlBarProps s).

(** ** Facts about the number operations *)

Lemma Qgtb_true (a b : Q) : Qgtb a b = true <-> b < a.
Proof.
  unfold Qgtb. rewrite Qlt_alt, <- (Qcompare_antisym a b).
  destruct (a ?= b); simpl; split; intro H; congruence.
Qed.

Lemma Qgtb_false (a b : Q) : Qgtb a b = false <-> a <= b.
Proof.
  unfold Qgtb. rewrite Qle_alt.
  destruct (a ?= b); split; intro H; congruence.
Qed.

Lemma Math_max_lower (a b : Q) : a <= Math_max a b.
Proof. apply Q.le_max_l. Qed.

Lemma Math_max_upper (a b c : Q) : a <= c -> b <= c -> Math_max a b <= c.
Proof. intros; apply Q.max_lub; assumption. Qed.

Lemma Math_min_le_r (a b : Q) : Math_min a b <= b.
Proof. apply Q.le_min_r. Qed.

Lemma clamp_range (lo hi v : Q) :
  lo <= hi -> lo <= Math_max lo (Math_min v hi) <= hi.
Proof.
  intro H. split.
  - apply Math_max_lower.
  - apply Math_max_upper; [assumption | apply Math_min_le_r].
Qed.

Lemma clamp_collapsed (lo hi v : Q) :
  hi <= lo -> Math_max lo (Math_min v hi) == lo.
Proof.
  intro H. unfold Math_max, Math_min.
  apply Q.max_l. apply Qle_trans with hi; [apply Q.le_min_r | assumption].
Qed.

Lemma MIN_SIZE_le_MAX_SIZE : MIN_SIZE <= MAX_SIZE.
Proof. unfold MIN_SIZE, MAX_SIZE. lra. Qed.

(** ** The gesture controller *)

Section Gesture.

Import Hook.

Variable containerRef : option DOMRect.

Lemma handleMouseMove_drag st e r :
  isDragging st = true ->
  resolveRect containerRef st = Some r ->
  handleMouseMove containerRef st e =
  (let newPos :=
     {| x := Math_max 0 (Math_min (clientX e - x (dragOffset st))
                                  (rect_width r - width (size st)));
        y := Math_max 0 (Math_min (clientY e - y (dragOffset st))
                                  (rect_height r - height (size st))) |} in
   ({| position := newPos; size := size st;
       isDragging := true; isResizing := isResizing st;
       dragOffset := dragOffset st; containerRect := Some r |},
    {| setPosition := Some newPos; setSize := None;
       onUpdate := Some (newPos, size st) |})).
Proof.
  intros Hd Hr. unfold handleMouseMove.
  rewrite Hd, Hr. simpl. rewrite Hd. reflexivity.
Qed.

Lemma handleMouseMove_resize st e r :
  isDragging st = false ->
  isResizing st = true ->
  resolveRect containerRef st = Some r ->
  handleMouseMove containerRef st e =
  (let w0 := Math_max MIN_SIZE
               (Math_min (clientX e - (rect_left r + x (position st)))
                         MAX_SIZE) in
   let h0 := Math_max MIN_SIZE
               (Math_min (clientY e - (rect_top r + y (position st)))
                         MAX_SIZE) in
   let newSize :=
     {| width := if Qgtb (x (position st) + w0) (rect_width r)
                 then rect_width r - x (position st) else w0;
        height := if Qgtb (y (position st) + h0) (rect_height r)
                  then rect_height r - y (position st) else h0 |} in
   ({| position := position st; size := newSize;
       isDragging := false; isResizing := true;
       dragOffset := dragOffset st; containerRect := Some r |},
    {| setPosition := None; setSize := Some newSize;
       onUpdate := Some (position st, newSize) |})).
Proof.
  intros Hd Hz Hr. unfold handleMouseMove.
  rewrite Hd, Hz, Hr. simpl. rewrite Hd, Hz. reflexivity.
Qed.

(** The boundary check of the resize branch on one axis. *)
Lemma resize_axis (p bound v : Q) :
  let d0 := Math_max MIN_SIZE (Math_min v MAX_SIZE) in
  let d := if Qgtb (p + d0) bound then bound - p else d0 in
  d <= MAX_SIZE /\ p + d <= bound /\ (p + MIN_SIZE <= bound -> MIN_SIZE <= d).
Proof.
  intros d0 d.
  destruct (clamp_range MIN_SIZE MAX_SIZE v MIN_SIZE_le_MAX_SIZE) as [Hlo Hhi].
  fold d0 in Hlo, Hhi. subst d.
  destruct (Qgtb (p + d0) bound) eqn:G.
  - apply Qgtb_true in G. repeat split; intros; lra.
  - apply Qgtb_false in G. repeat split; intros; lra.
Qed.

End Gesture.

(** *** Drag *)

(** C1, counterexample.  In a 320 by 180 container the default 200 by 200
    overlay is taller than the container: a drag publishes [y = 0], which
    is above [containerHeight - height = -20]. *)
Lemma drag_clamp_counterexample :
  let cref := Some small_container in
  let st := Hook.handleMouseDown cref initial_hook
              {| clientX := 60; clientY := 60 |} drag in
  Hook.onUpdate (snd (Hook.handleMouseMove cref st
                        {| clientX := 70; clientY := 70 |}))
  = Some ({| x := 60; y := 0 |}, {| width := 200; height := 200 |})
  /\ ~ drag_within_container small_container
         {| x := 60; y := 0 |} {| width := 200; height := 200 |}.
Proof.
  split.
  - vm_compute. reflexivity.
  - unfold drag_within_container; simpl. intros [_ [_ H]]. lra.
Qed.

(** C1, as amended.  Every pointer-move processed while a drag is active
    publishes a position with [0 <= x] and [0 <= y], whatever the raw
    pointer coordinates; [x <= containerWidth - width] holds whenever the
    overlay is not wider than the container, and [x] is [0] otherwise
    (likewise for [y] and the heights); the size is published unchanged.
    In a container of 800 by 450, an overlay of size 200 by 200 dragged to
    the effective pointer position (1000,1000) is published at
    (600,250). *)
Theorem drag_update_clamped
    (containerRef : option DOMRect) (st : Hook.State) (e : MouseEvent)
    (r : DOMRect) :
  Hook.isDragging st = true ->
  Hook.resolveRect containerRef st = Some r ->
  (exists p,
      Hook.onUpdate (snd (Hook.handleMouseMove containerRef st e))
      = Some (p, Hook.size st)
      /\ Hook.position (fst (Hook.handleMouseMove containerRef st e)) = p
      /\ 0 <= x p /\ 0 <= y p
      /\ (width (Hook.size st) <= rect_width r ->
          x p <= rect_width r - width (Hook.size st))
      /\ (height (Hook.size st) <= rect_height r ->
          y p <= rect_height r - height (Hook.size st))
      /\ (rect_width r <= width (Hook.size st) -> x p == 0)
      /\ (rect_height r <= height (Hook.size st) -> y p == 0))
  /\ (let cref := Some container_800x450 in
      let st0 := Hook.handleMouseDown cref hook_700_400
                   {| clientX := 700; clientY := 400 |} drag in
      Hook.onUpdate (snd (Hook.handleMouseMove cref st0
                            {| clientX := 1000; clientY := 1000 |}))
      = Some ({| x := 600; y := 250 |}, {| width := 200; height := 200 |})).
Proof.
  intros Hd Hr. split.
  - rewrite (handleMouseMove_drag containerRef st e r Hd Hr).
    cbv zeta. eexists. split; [reflexivity |]. split; [reflexivity |].
    cbn [x y]. repeat split.
    + apply Math_max_lower.
    + apply Math_max_lower.
    + intro H. apply Math_max_upper; [lra | apply Math_min_le_r].
    + intro H. apply Math_max_upper; [lra | apply Math_min_le_r].
    + intro H. apply clamp_collapsed. lra.
    + intro H. apply clamp_collapsed. lra.
  - vm_compute. reflexivity.
Qed.

Lemma drag_update_clamped_witness :
  let cref := Some container_800x450 in
  let st := Hook.handleMouseDown cref hook_700_400
              {| clientX := 710; clientY := 410 |} drag in
  Hook.isDragging st = true /\
  Hook.resolveRect cref st = Some container_800x450 /\
  exists p,
    Hook.onUpdate (snd (Hook.handleMouseMove cref st
                          {| clientX := 5000; clientY := -5000 |}))
    = Some (p, Hook.size st)
    /\ 0 <= x p /\ 0 <= y p.
Proof.
  cbv zeta. split; [reflexivity |]. split; [reflexivity |].
  destruct (drag_update_clamped (Some container_800x450)
              (Hook.handleMouseDown (Some container_800x450) hook_700_400
                 {| clientX := 710; clientY := 410 |} drag)
              {| clientX := 5000; clientY := -5000 |}
              container_800x450 eq_refl eq_refl)
    as [[p [H1 [_ [H2 [H3 _]]]]] _].
  exists p. split; [exact H1 |]. split; assumption.
Defined.

(** *** Resize *)

(** C2, counterexample.  In a 240 by 135 container the default overlay at
    (50,50) cannot be 100 high without leaving the container: the resize
    publishes a height of 85, below [MIN_SIZE]. *)
Lemma resize_clamp_counterexample :
  let cref := Some tiny_container in
  let st := Hook.handleMouseDown cref initial_hook
              {| clientX := 250; clientY := 250 |} resize in
  Hook.onUpdate (snd (Hook.handleMouseMove cref st
                        {| clientX := 200; clientY := 200 |}))
  = Some ({| x := 50; y := 50 |}, {| width := 150; height := 85 |})
  /\ ~ resize_within_bounds tiny_container
         {| x := 50; y := 50 |} {| width := 150; height := 85 |}.
Proof.
  split.
  - vm_compute. reflexivity.
  - unfold resize_within_bounds, MIN_SIZE; simpl. intros [_ [[H _] _]]. lra.
Qed.

(** C2, as amended.  Every pointer-move processed while a resize is active
    publishes a width and a height that are at most [MAX_SIZE] and satisfy
    [position.x + width <= containerWidth] and
    [position.y + height <= containerHeight]; a dimension is at least
    [MIN_SIZE] whenever the container leaves room for it
    ([position.x + MIN_SIZE <= containerWidth], likewise for the height).
    The update never changes the position. *)
Theorem resize_update_bounded
    (containerRef : option DOMRect) (st : Hook.State) (e : MouseEvent)
    (r : DOMRect) :
  Hook.isDragging st = false ->
  Hook.isResizing st = true ->
  Hook.resolveRect containerRef st = Some r ->
  exists s,
    Hook.onUpdate (snd (Hook.handleMouseMove containerRef st e))
    = Some (Hook.position st, s)
    /\ Hook.size (fst (Hook.handleMouseMove containerRef st e)) = s
    /\ Hook.position (fst (Hook.handleMouseMove containerRef st e))
       = Hook.position st
    /\ Hook.setPosition (snd (Hook.handleMouseMove containerRef st e)) = None
    /\ width s <= MAX_SIZE /\ height s <= MAX_SIZE
    /\ x (Hook.position st) + width s <= rect_width r
    /\ y (Hook.position st) + height s <= rect_height r
    /\ (x (Hook.position st) + MIN_SIZE <= rect_width r -> MIN_SIZE <= width s)
    /\ (y (Hook.position st) + MIN_SIZE <= rect_height r ->
        MIN_SIZE <= height s).
Proof.
  intros Hd Hz Hr.
  rewrite (handleMouseMove_resize containerRef st e r Hd Hz Hr).
  cbv zeta. eexists. do 4 (split; [reflexivity |]).
  cbn [width height].
  destruct (resize_axis (x (Hook.position st)) (rect_width r)
              (clientX e - (rect_left r + x (Hook.position st))))
    as [W1 [W2 W3]].
  destruct (resize_axis (y (Hook.position st)) (rect_height r)
              (clientY e - (rect_top r + y (Hook.position st))))
    as [H1 [H2 H3]].
  cbv zeta in W1, W2, W3, H1, H2, H3.
  repeat split; assumption.
Qed.

Lemma resize_update_bounded_witness :
  let cref := Some container_800x450 in
  let st := Hook.handleMouseDown cref initial_hook
              {| clientX := 250; clientY := 250 |} resize in
  Hook.isDragging st = false /\
  Hook.isResizing st = true /\
  Hook.resolveRect cref st = Some container_800x450 /\
  exists s,
    Hook.onUpdate (snd (Hook.handleMouseMove cref st
                          {| clientX := 2000; clientY := 10 |}))
    = Some (Hook.position st, s)
    /\ width s <= MAX_SIZE /\ height s <= MAX_SIZE.
Proof.
  cbv zeta. do 3 (split; [reflexivity |]).
  destruct (resize_update_bounded (Some container_800x450)
              (Hook.handleMouseDown (Some container_800x450) initial_hook
                 {| clientX := 250; clientY := 250 |} resize)
              {| clientX := 2000; clientY := 10 |}
              container_800x450 eq_refl eq_refl eq_refl)
    as [s [H1 [_ [_ [_ [H2 [H3 _]]]]]]].
  exists s. split; [exact H1 |]. split; assumption.
Defined.

(** *** Unavailable and zero-sized containers *)

(** C7, counterexample.  A container of width and height 0 still has a
    bounding rectangle: the pointer-move of a drag is processed, moves
    the overlay from (50,50) to (0,0) and publishes that position. *)
Lemma zero_sized_container_counterexample :
  let cref := Some zero_container in
  let st := Hook.handleMouseDown cref initial_hook
              {| clientX := 60; clientY := 60 |} drag in
  let e := {| clientX := 300; clientY := 300 |} in
  rect_width zero_container == 0 /\ rect_height zero_container == 0 /\
  Hook.position st = {| x := 50; y := 50 |} /\
  Hook.position (fst (Hook.handleMouseMove cref st e)) = {| x := 0; y := 0 |} /\
  Hook.onUpdate (snd (Hook.handleMouseMove cref st e))
  = Some ({| x := 0; y := 0 |}, {| width := 200; height := 200 |}) /\
  Hook.handleMouseMove cref st e <> (st, Hook.no_effects).
Proof.
  cbv zeta. repeat split; try reflexivity.
  vm_compute. intro H. discriminate H.
Qed.

(** C7, as amended.  If the container's bounds are unavailable when a
    pointer-move is processed (no rectangle is cached and there is no
    container element), the update is a no-op: the state is unchanged and
    nothing is computed or published; likewise a pointer-down without a
    container element begins no gesture.  A container of size zero gets no
    special treatment. *)
Theorem unavailable_container_noop
    (containerRef : option DOMRect) (st : Hook.State) (e : MouseEvent)
    (type : GestureType) :
  Hook.resolveRect containerRef st = None ->
  Hook.handleMouseMove containerRef st e = (st, Hook.no_effects)
  /\ Hook.handleMouseDown None st e type = st.
Proof.
  intro H. split; [| reflexivity].
  unfold Hook.handleMouseMove. rewrite H.
  destruct (negb (Hook.isDragging st) && negb (Hook.isResizing st));
    reflexivity.
Qed.

Lemma unavailable_container_noop_witness :
  let st := Hook.set_containerRect
              (Hook.handleMouseDown (Some container_800x450) initial_hook
                 {| clientX := 60; clientY := 60 |} drag) None in
  let e := {| clientX := 300; clientY := 300 |} in
  Hook.isDragging st = true /\
  Hook.resolveRect None st = None /\
  Hook.handleMouseMove None st e = (st, Hook.no_effects).
Proof.
  cbv zeta. split; [reflexivity |]. split; [reflexivity |].
  exact (proj1 (unavailable_container_noop None
                  (Hook.set_containerRect
                     (Hook.handleMouseDown (Some container_800x450)
                        initial_hook
                        {| clientX := 60; clientY := 60 |} drag) None)
                  {| clientX := 300; clientY := 300 |} drag eq_refl)).
Defined.

(** ** The compositor *)

Section Renderer.

Import VideoCompositor.

Variables containerWidth containerHeight : Q.

Let draw' := draw containerWidth containerHeight.
Let frame_cmds' := frame_cmds containerWidth containerHeight.

(** An inactive renderer's [draw] returns at once. *)
Lemma draw_inactive e s :
  isActive s = false -> draw containerWidth containerHeight e s = (s, []).
Proof.
  intro H. unfold VideoCompositor.draw. rewrite H. reflexivity.
Qed.

(** An active renderer's [draw] requests exactly one further frame. *)
Lemma draw_active e s :
  isActive s = true ->
  isActive (fst (draw' e s)) = true
  /\ raf_pending (fst (draw' e s)) = raf_pending s ++ [raf_next s]
  /\ animationFrameId (fst (draw' e s)) = Some (raf_next s).
Proof.
  intro H. unfold draw', VideoCompositor.draw. rewrite H. simpl.
  destruct (readyState (screen e) <? 2)%nat.
  - simpl. auto.
  - destruct (Canvas.run _ _) as [c1 out]. simpl. auto.
Qed.

(** What a composed frame paints, and the surface it leaves. *)
Lemma draw_composed e s :
  isActive s = true ->
  (2 <= readyState (screen e))%nat ->
  (exists c0, snd (draw' e s) = snd (Canvas.run (frame_cmds' e) (c0, [])))
  /\ canvas_width (fst (draw' e s)) = videoWidth (screen e)
  /\ canvas_height (fst (draw' e s)) = videoHeight (screen e).
Proof.
  intros Ha Hs. unfold draw', frame_cmds', VideoCompositor.draw.
  rewrite Ha. simpl.
  apply Nat.ltb_ge in Hs. rewrite Hs.
  destruct (Canvas.run _ _) as [c1 out] eqn:R. simpl. split.
  - eexists. rewrite R. reflexivity.
  - destruct (Z.eqb_spec (canvas_width s) (videoWidth (screen e)));
      destruct (Z.eqb_spec (canvas_height s) (videoHeight (screen e)));
      simpl; auto.
Qed.

(** Running the calls of an overlay frame: the shape and the border test
    decide which calls there are, and each case computes. *)
Ltac run_overlay_frame e c0 Hv Hc :=
  apply Nat.leb_le in Hc;
  unfold frame_cmds', VideoCompositor.frame_cmds,
    VideoCompositor.overlay_cmds;
  rewrite Hv, Hc; destruct c0;
  destruct (shape (getConfig e));
  destruct (Qgtb (borderWidth (getConfig e)) 0);
  reflexivity.

Lemma frame_camera_images c0 e :
  isVisible (getConfig e) = true ->
  (2 <= readyState (camera e))%nat ->
  camera_images (snd (Canvas.run (frame_cmds' e) (c0, [])))
  = [(Some (zoom_crop (inject_Z (videoWidth (camera e)))
                      (inject_Z (videoHeight (camera e)))
                      (zoomLevel (getConfig e))),
      destination_rect (inject_Z (videoWidth (screen e)))
                       (inject_Z (videoHeight (screen e)))
                       containerWidth containerHeight
                       (position (getConfig e)) (size (getConfig e)))].
Proof.
  intros Hv Hc. run_overlay_frame e c0 Hv Hc.
Qed.

Lemma frame_strokes c0 e :
  isVisible (getConfig e) = true ->
  (2 <= readyState (camera e))%nat ->
  strokes (snd (Canvas.run (frame_cmds' e) (c0, [])))
  = if Qgtb (borderWidth (getConfig e)) 0 then
      [{| outline :=
            shape_outline (shape (getConfig e))
              (destination_rect (inject_Z (videoWidth (screen e)))
                                (inject_Z (videoHeight (screen e)))
                                containerWidth containerHeight
                                (position (getConfig e))
                                (size (getConfig e)));
          stroke_color := borderColor (getConfig e);
          stroke_width :=
            borderWidth (getConfig e)
            * (inject_Z (videoWidth (screen e)) / containerWidth) |}]
    else [].
Proof.
  intros Hv Hc. run_overlay_frame e c0 Hv Hc.
Qed.

(** Ticks of an inactive renderer change and paint nothing. *)
Lemma ticks_inactive e (handles : list positive) s out :
  isActive s = false ->
  fold_left
    (fun acc (_ : positive) =>
       let (s1, out1) := draw containerWidth containerHeight e (fst acc) in
       (s1, snd acc ++ out1))
    handles (s, out)
  = (s, out).
Proof.
  intro H. induction handles as [| h hs IH]; simpl.
  - reflexivity.
  - rewrite (draw_inactive e s H). simpl. rewrite app_nil_r. exact IH.
Qed.

End Renderer.

Lemma example_draws_overlay : draws_overlay example_env example_renderer.
Proof.
  unfold draws_overlay. split; [reflexivity |]. split.
  - apply Nat.leb_le. reflexivity.
  - split; [reflexivity | apply Nat.leb_le; reflexivity].
Defined.

(** *** Zoom *)

(** C3.  On every frame in which the overlay is drawn, the camera frame is
    drawn once, and its source crop is the rectangle of width
    [nativeW / zoom] and height [nativeH / zoom] with
    [zoom = max(1, zoomLevel)] and centred origin
    [((nativeW - cropW) / 2, (nativeH - cropH) / 2)].  With zoomLevel 2 and
    a native resolution of 1280 by 720 the crop is 640 by 360 at
    (320,180). *)
Theorem zoom_source_crop
    (containerWidth containerHeight : Q)
    (e : VideoCompositor.Env) (s : VideoCompositor.State) :
  draws_overlay e s ->
  (exists dst,
      camera_images
        (snd (VideoCompositor.draw containerWidth containerHeight e s))
      = [(Some (zoom_crop
                  (inject_Z (videoWidth (VideoCompositor.camera e)))
                  (inject_Z (videoHeight (VideoCompositor.camera e)))
                  (zoomLevel (VideoCompositor.getConfig e))),
          dst)])
  /\ Rect_eq (zoom_crop 1280 720 2)
             {| rect_x := 320; rect_y := 180; rect_w := 640; rect_h := 360 |}.
Proof.
  intros [Ha [Hs [Hv Hc]]]. split.
  - destruct (draw_composed containerWidth containerHeight e s Ha Hs)
      as [[c0 Hout] _].
    rewrite Hout, (frame_camera_images _ _ c0 e Hv Hc).
    eexists. reflexivity.
  - unfold Rect_eq; simpl. repeat split; reflexivity.
Qed.

Lemma zoom_source_crop_witness :
  draws_overlay example_env example_renderer /\
  exists dst,
    camera_images (snd (VideoCompositor.draw 800 450 example_env
                          example_renderer))
    = [(Some (zoom_crop 1280 720 1), dst)].
Proof.
  split; [exact example_draws_overlay |].
  exact (proj1 (zoom_source_crop 800 450 example_env example_renderer
                  example_draws_overlay)).
Defined.

(** *** Destination rectangle *)

(** C5.  On every frame in which the overlay is drawn, the camera frame is
    drawn into the configured position and size mapped through
    [scaleX = surfaceWidth / containerWidth] and
    [scaleY = surfaceHeight / containerHeight], the surface being the
    canvas as the frame leaves it. *)
Theorem overlay_destination_rect
    (containerWidth containerHeight : Q)
    (e : VideoCompositor.Env) (s : VideoCompositor.State) :
  draws_overlay e s ->
  let s' := fst (VideoCompositor.draw containerWidth containerHeight e s) in
  exists crop,
    camera_images
      (snd (VideoCompositor.draw containerWidth containerHeight e s))
    = [(crop,
        destination_rect
          (inject_Z (VideoCompositor.canvas_width s'))
          (inject_Z (VideoCompositor.canvas_height s'))
          containerWidth containerHeight
          (position (VideoCompositor.getConfig e))
          (size (VideoCompositor.getConfig e)))].
Proof.
  intros [Ha [Hs [Hv Hc]]] s'. subst s'.
  destruct (draw_composed containerWidth containerHeight e s Ha Hs)
    as [[c0 Hout] [Hw Hh]].
  rewrite Hout, Hw, Hh, (frame_camera_images _ _ c0 e Hv Hc).
  eexists. reflexivity.
Qed.

Lemma overlay_destination_rect_witness :
  draws_overlay example_env example_renderer /\
  exists crop,
    camera_images (snd (VideoCompositor.draw 800 450 example_env
                          example_renderer))
    = [(crop,
        destination_rect 1920 1080 800 450
          {| x := 50; y := 50 |} {| width := 200; height := 200 |})].
Proof.
  split; [exact example_draws_overlay |].
  exact (overlay_destination_rect 800 450 example_env example_renderer
           example_draws_overlay).
Defined.

(** *** Border *)

(** C6.  On every frame in which the overlay is drawn: if
    [borderWidth > 0], exactly one stroke is produced, along the outline of
    the shape (the ellipse inscribed in the destination rectangle for a
    circle, the destination rectangle for a rectangle), in [borderColor]
    and of line width [borderWidth * scaleX]; if [borderWidth = 0], no
    stroke is produced.  Hence a frame drawn after the border width was
    set to 0 has no stroke, and the next frame, drawn after it was set
    back to 4, has the stroke again, in the configured colour and of
    width [4 * scaleX]. *)
Theorem border_stroke
    (containerWidth containerHeight : Q)
    (e : VideoCompositor.Env) (s : VideoCompositor.State) :
  draws_overlay e s ->
  let config := VideoCompositor.getConfig e in
  let surfaceWidth := inject_Z (videoWidth (VideoCompositor.screen e)) in
  let surfaceHeight := inject_Z (videoHeight (VideoCompositor.screen e)) in
  let scaleX := surfaceWidth / containerWidth in
  let path :=
    shape_outline (shape config)
      (destination_rect surfaceWidth surfaceHeight
         containerWidth containerHeight (position config) (size config)) in
  let draw := VideoCompositor.draw containerWidth containerHeight in
  (0 < borderWidth config ->
   strokes (snd (draw e s))
   = [{| outline := path; stroke_color := borderColor config;
         stroke_width := borderWidth config * scaleX |}])
  /\ (borderWidth config == 0 -> strokes (snd (draw e s)) = [])
  /\ (let config0 := App.onWidthChange 0 config in
      let config4 := App.onWidthChange 4 config0 in
      let frame0 := draw (with_config config0 e) s in
      let frame4 := draw (with_config config4 e) (fst frame0) in
      strokes (snd frame0) = []
      /\ strokes (snd frame4)
         = [{| outline := path; stroke_color := borderColor config;
               stroke_width := 4 * scaleX |}]).
Proof.
  intros [Ha [Hs [Hv Hc]]]; cbv zeta.
  assert (Hstrokes :
    forall c s0, VideoCompositor.isActive s0 = true ->
      isVisible c = true ->
      strokes (snd (VideoCompositor.draw containerWidth containerHeight
                      (with_config c e) s0))
      = if Qgtb (borderWidth c) 0 then
          [{| outline :=
                shape_outline (shape c)
                  (destination_rect
                     (inject_Z (videoWidth (VideoCompositor.screen e)))
                     (inject_Z (videoHeight (VideoCompositor.screen e)))
                     containerWidth containerHeight (position c) (size c));
              stroke_color := borderColor c;
              stroke_width :=
                borderWidth c
                * (inject_Z (videoWidth (VideoCompositor.screen e))
                   / containerWidth) |}]
        else []).
  { intros c s0 Ha0 Hv0.
    destruct (draw_composed containerWidth containerHeight
                (with_config c e) s0 Ha0 Hs) as [[c0 Hout] _].
    rewrite Hout.
    exact (frame_strokes containerWidth containerHeight c0
             (with_config c e) Hv0 Hc). }
  assert (He : with_config (VideoCompositor.getConfig e) e = e)
    by (destruct e; reflexivity).
  pose proof (Hstrokes (VideoCompositor.getConfig e) s Ha Hv) as H.
  rewrite He in H.
  split; [| split].
  - intro Hpos. rewrite H.
    destruct (Qgtb _ 0) eqn:G; [reflexivity |].
    apply Qgtb_false in G. lra.
  - intro Hzero. rewrite H.
    destruct (Qgtb _ 0) eqn:G; [| reflexivity].
    apply Qgtb_true in G. lra.
  - split.
    + rewrite Hstrokes by assumption. reflexivity.
    + rewrite Hstrokes.
      * reflexivity.
      * apply (draw_active containerWidth containerHeight). exact Ha.
      * exact Hv.
Qed.

Lemma border_stroke_witness :
  draws_overlay example_env example_renderer /\
  0 < borderWidth INITIAL_OVERLAY_CONFIG /\
  strokes (snd (VideoCompositor.draw 800 450 example_env example_renderer))
  = [{| outline :=
          shape_outline circle
            (destination_rect 1920 1080 800 450
               {| x := 50; y := 50 |} {| width := 200; height := 200 |});
        stroke_color := "#3b82f6"%string;
        stroke_width := 4 * (1920 / 800) |}].
Proof.
  split; [exact example_draws_overlay |].
  split; [reflexivity |].
  exact (proj1 (border_stroke 800 450 example_env example_renderer
                  example_draws_overlay) eq_refl).
Defined.

(** *** Cancellation *)

Section Cancellation.

Import VideoCompositor.

Variables containerWidth containerHeight : Q.

Lemma start_one_pending e w h next :
  one_pending (fst (start containerWidth containerHeight e (new w h next))).
Proof.
  unfold start.
  destruct (draw_active containerWidth containerHeight e
              (set_isActive true (new w h next)) eq_refl) as [Ha [Hp Hi]].
  split; [exact Ha |]. eexists. split; [exact Hp | exact Hi].
Qed.

Lemma animationFrame_one_pending e s :
  one_pending s ->
  one_pending (fst (fst (animationFrame containerWidth containerHeight e s))).
Proof.
  intros [Ha [h [Hp Hi]]]. unfold animationFrame. rewrite Hp. simpl.
  match goal with
  | |- context [draw _ _ e ?s0] =>
    destruct (draw_active containerWidth containerHeight e s0 Ha)
      as [Ha' [Hp' Hi']];
    destruct (draw containerWidth containerHeight e s0) as [s1 out1]
  end.
  simpl in *. split; [exact Ha' |]. eexists. split; [exact Hp' | exact Hi'].
Qed.

Lemma frames_one_pending es s :
  one_pending s -> one_pending (frames containerWidth containerHeight es s).
Proof.
  revert s. induction es as [| e es IH]; intros s H; simpl.
  - exact H.
  - apply IH, animationFrame_one_pending, H.
Qed.

Lemma stop_one_pending s :
  one_pending s -> raf_pending (stop s) = [].
Proof.
  intros [_ [h [Hp Hi]]]. unfold stop. simpl. rewrite Hi. simpl.
  rewrite Hp. simpl. rewrite Pos.eqb_refl. reflexivity.
Qed.

Lemma stop_inactive s : isActive (stop s) = false.
Proof.
  unfold stop. simpl. destruct (animationFrameId s); reflexivity.
Qed.

Lemma stop_cancels s h :
  animationFrameId s = Some h -> ~ In h (raf_pending (stop s)).
Proof.
  intros Hi Hin. unfold stop in Hin. simpl in Hin. rewrite Hi in Hin.
  simpl in Hin. apply filter_In in Hin. destruct Hin as [_ Hne].
  rewrite Pos.eqb_refl in Hne. discriminate Hne.
Qed.

End Cancellation.

(** C9, counterexample.  The started renderer has one frame request
    pending; [stop()] cancels it, so the animation frame that follows
    invokes no [draw]: no tick observes the flag, and cancellation is
    immediate. *)
Lemma cancellation_counterexample :
  VideoCompositor.raf_pending example_renderer = [1%positive]
  /\ VideoCompositor.raf_pending (VideoCompositor.stop example_renderer) = []
  /\ ~ flag_observed_at_next_tick 800 450 example_env example_renderer.
Proof.
  split; [vm_compute; reflexivity |].
  split; [vm_compute; reflexivity |].
  unfold flag_observed_at_next_tick.
  replace (snd (VideoCompositor.animationFrame 800 450 example_env
                  (VideoCompositor.stop example_renderer))) with O
    by (vm_compute; reflexivity).
  apply Nat.lt_irrefl.
Qed.

(** C9, as amended.  [stop()] clears the active flag and cancels the frame
    request that [animationFrameId] names.  A [draw] tick that still runs
    after [stop()] observes the flag at its top and returns without
    drawing and without rescheduling: nothing is painted after [stop()]
    returns, and after the next animation frame no request is pending, so
    cancellation takes effect at most one tick late.  For a renderer
    started once no request at all is pending when [stop()] returns:
    cancellation is then immediate. *)
Theorem stop_cancels_renderer
    (containerWidth containerHeight : Q)
    (e : VideoCompositor.Env) (s : VideoCompositor.State) :
  VideoCompositor.isActive (VideoCompositor.stop s) = false
  /\ VideoCompositor.draw containerWidth containerHeight e
       (VideoCompositor.stop s)
     = (VideoCompositor.stop s, [])
  /\ (forall h, VideoCompositor.animationFrameId s = Some h ->
                ~ In h (VideoCompositor.raf_pending (VideoCompositor.stop s)))
  /\ (let next := VideoCompositor.animationFrame
                    containerWidth containerHeight e
                    (VideoCompositor.stop s) in
      snd (fst next) = []
      /\ VideoCompositor.raf_pending (fst (fst next)) = []
      /\ VideoCompositor.ctx (fst (fst next))
         = VideoCompositor.ctx (VideoCompositor.stop s))
  /\ (forall es e0 w h n,
         VideoCompositor.raf_pending
           (VideoCompositor.stop
              (frames containerWidth containerHeight es
                 (fst (VideoCompositor.start containerWidth containerHeight
                         e0 (VideoCompositor.new w h n)))))
         = []).
Proof.
  split; [apply stop_inactive |].
  split; [apply draw_inactive, stop_inactive |].
  split; [intros h; apply stop_cancels |].
  split.
  - cbv zeta. unfold VideoCompositor.animationFrame.
    rewrite ticks_inactive by (simpl; apply stop_inactive).
    simpl. repeat split; reflexivity.
  - intros es e0 w h n.
    apply stop_one_pending, frames_one_pending, start_one_pending.
Qed.

Lemma stop_cancels_renderer_witness :
  VideoCompositor.animationFrameId example_renderer = Some 1%positive
  /\ ~ In 1%positive
       (VideoCompositor.raf_pending (VideoCompositor.stop example_renderer)).
Proof.
  split; [reflexivity |].
  exact (proj1 (proj2 (proj2 (stop_cancels_renderer 800 450 example_env
                                example_renderer)))
           1%positive eq_refl).
Defined.

(** ** The recording session *)

(** *** Chunk buffer *)

Lemma deliver_all (s : App.State) (r : App.Recording) (ds : list Blob) :
  App.mediaRecorderRef s = Some r ->
  fold_left deliver ds s
  = App.set_mediaRecorderRef
      (Some {| App.recorder := App.recorder r;
               App.chunks := App.chunks r ++ filter nonempty ds |}) s.
Proof.
  revert s r. induction ds as [| d ds IH]; intros s r H; simpl.
  - rewrite app_nil_r. destruct s, r; simpl in *; subst; reflexivity.
  - unfold deliver at 2. unfold App.dispatch. rewrite H.
    erewrite IH by reflexivity. simpl.
    unfold App.ondataavailable, nonempty.
    destruct (0 <? blob_size d)%nat; simpl.
    + rewrite <- app_assoc. reflexivity.
    + reflexivity.
Qed.

Lemma concat_nonempty (ds : list Blob) :
  List.concat (map blob_bytes (filter nonempty ds))
  = List.concat (map blob_bytes ds).
Proof.
  induction ds as [| d ds IH]; simpl; [reflexivity |].
  unfold nonempty at 1. destruct (0 <? blob_size d)%nat eqn:E; simpl.
  - rewrite IH. reflexivity.
  - apply Nat.ltb_ge in E. unfold blob_size in E.
    destruct (blob_bytes d); simpl in *; [exact IH | lia].
Qed.

(** C4.  In a started recording the chunk buffer holds, after any sequence
    of encoder deliveries, exactly the delivered segments of nonzero
    length, in delivery order (zero-length segments are dropped); the
    artifact finalized from it is the concatenation of the buffered
    segments in that order, which is the concatenation of everything
    delivered. *)
Theorem chunk_buffer_order (s : App.State) (ds : list Blob) :
  let s1 := fold_left deliver ds (App.handleStartRecording None s) in
  option_map App.chunks (App.mediaRecorderRef s1) = Some (filter nonempty ds)
  /\ App.recordedBlob (App.dispatch MediaRecorder.stopped s1)
     = Some (new_Blob (filter nonempty ds) RECORDING_MIME_TYPE)
  /\ blob_bytes (new_Blob (filter nonempty ds) RECORDING_MIME_TYPE)
     = List.concat (map blob_bytes ds).
Proof.
  cbv zeta.
  rewrite (deliver_all (App.handleStartRecording None s) _ ds eq_refl).
  simpl. repeat split. apply concat_nonempty.
Qed.

Example chunk_buffer_keeps_duplicates :
  let a := {| blob_bytes := [Byte.x01; Byte.x02]; blob_type := ""%string |} in
  let z := {| blob_bytes := []; blob_type := ""%string |} in
  let c := {| blob_bytes := [Byte.x03]; blob_type := ""%string |} in
  option_map App.chunks
    (App.mediaRecorderRef
       (fold_left deliver [a; z; c; a]
          (App.handleStartRecording None App.init)))
  = Some [a; c; a].
Proof. reflexivity. Qed.

(** *** Stop requests *)

Lemma handleStopRecording_not_live (s : App.State) :
  App.phase s <> App.Live -> App.handleStopRecording s = s.
Proof.
  unfold App.phase, App.handleStopRecording.
  destruct (App.mediaRecorderRef s) as [r |]; [| reflexivity].
  destruct (MediaRecorder.is_inactive (App.recorder r)); simpl.
  - reflexivity.
  - intro H. exfalso. apply H. reflexivity.
Qed.

Lemma stop_makes_inactive (r : MediaRecorder.t) :
  MediaRecorder.is_inactive (MediaRecorder.stop r) = true.
Proof.
  unfold MediaRecorder.is_inactive, MediaRecorder.stop.
  destruct (MediaRecorder.state r) eqn:E; simpl; try rewrite E; reflexivity.
Qed.

Lemma handleStopRecording_live (s : App.State) :
  App.phase s = App.Live ->
  App.finalizations (App.handleStopRecording s) = S (App.finalizations s)
  /\ App.phase (App.handleStopRecording s) = App.Stopping.
Proof.
  unfold App.phase, App.handleStopRecording, App.finalizations.
  destruct (App.mediaRecorderRef s) as [r |] eqn:R; [| discriminate].
  destruct (MediaRecorder.is_inactive (App.recorder r)) eqn:I.
  - destruct (List.length _); discriminate.
  - intros _. simpl. rewrite stop_makes_inactive.
    assert (L : List.length
                  (filter App.is_stopped
                     (MediaRecorder.tasks
                        (MediaRecorder.stop (App.recorder r))))
                = S (List.length
                       (filter App.is_stopped
                          (MediaRecorder.tasks (App.recorder r))))).
    { unfold MediaRecorder.stop, MediaRecorder.is_inactive in *.
      destruct (MediaRecorder.state (App.recorder r)); [discriminate | |];
        simpl; rewrite filter_app, length_app; simpl; lia. }
    rewrite L. split; reflexivity.
Qed.

(** C8.  A stop request issued when the session is not Live (never
    started, already Stopping, or Idle again) changes nothing: no
    transition and no finalization.  A session that never started stays
    Idle.  Of two stop requests in a row on a Live session the second is
    a no-op, so that exactly one finalization becomes due. *)
Theorem stop_when_not_live (s : App.State) :
  (App.phase s <> App.Live -> App.handleStopRecording s = s)
  /\ App.handleStopRecording (App.handleStopRecording s)
     = App.handleStopRecording s
  /\ (App.phase s = App.Live ->
      App.phase (App.handleStopRecording s) = App.Stopping
      /\ App.finalizations (App.handleStopRecording (App.handleStopRecording s))
         = S (App.finalizations s))
  /\ (App.handleStopRecording App.init = App.init
      /\ App.phase App.init = App.Idle).
Proof.
  assert (Hidem : App.handleStopRecording (App.handleStopRecording s)
                  = App.handleStopRecording s).
  { destruct (App.phase s) eqn:P.
    - rewrite (handleStopRecording_not_live s) by (rewrite P; discriminate).
      apply handleStopRecording_not_live. rewrite P. discriminate.
    - apply handleStopRecording_not_live.
      rewrite (proj2 (handleStopRecording_live s P)). discriminate.
    - rewrite (handleStopRecording_not_live s) by (rewrite P; discriminate).
      apply handleStopRecording_not_live. rewrite P. discriminate. }
  split; [apply handleStopRecording_not_live |].
  split; [exact Hidem |].
  split.
  - intro P. rewrite Hidem.
    destruct (handleStopRecording_live s P) as [F Q]. split; assumption.
  - split; reflexivity.
Qed.

Lemma stop_when_not_live_witness :
  let live := App.handleStartRecording None App.init in
  let stopping := App.handleStopRecording live in
  App.phase live = App.Live
  /\ App.phase stopping <> App.Live
  /\ App.handleStopRecording stopping = stopping
  /\ App.finalizations (App.handleStopRecording stopping) = 1%nat.
Proof.
  cbv zeta. split; [reflexivity |].
  split; [discriminate |].
  split.
  - apply (proj1 (stop_when_not_live
                    (App.handleStopRecording
                       (App.handleStartRecording None App.init)))).
    discriminate.
  - exact (proj2 (proj1 (proj2 (proj2 (stop_when_not_live
                    (App.handleStartRecording None App.init)))) eq_refl)).
Defined.

Example two_stops_one_artifact :
  let live := App.encoded [Byte.x1a; Byte.x45]
                (App.handleStartRecording None App.init) in
  let idle := App.runTasks
                (App.handleStopRecording (App.handleStopRecording live)) in
  App.recordedBlob idle
  = Some {| blob_bytes := [Byte.x1a; Byte.x45];
            blob_type := RECORDING_MIME_TYPE |}
  /\ App.isRecording idle = false
  /\ App.phase idle = App.Idle
  /\ App.handleStopRecording idle = idle.
Proof. repeat split. Qed.

(** *** Publishing into the configuration *)

(** C10.  Every update the gesture controller publishes into the overlay
    configuration replaces the position and the size only: shape,
    visibility, border colour, border width and zoom level are
    unchanged. *)
Theorem update_preserves_other_fields
    (containerRef : option DOMRect) (st : Hook.State) (e : MouseEvent)
    (s : App.State) :
  let before := App.overlayConfig s in
  let after :=
    App.overlayConfig
      (App.publish (snd (Hook.handleMouseMove containerRef st e)) s) in
  (shape after = shape before
   /\ isVisible after = isVisible before
   /\ borderColor after = borderColor before
   /\ borderWidth after = borderWidth before
   /\ zoomLevel after = zoomLevel before)
  /\ (forall pos sz,
         let c := App.overlayConfig (App.updateOverlayConfig pos sz s) in
         position c = pos /\ size c = sz
         /\ shape c = shape before
         /\ isVisible c = isVisible before
         /\ borderColor c = borderColor before
         /\ borderWidth c = borderWidth before
         /\ zoomLevel c = zoomLevel before).
Proof.
  cbv zeta. split.
  - unfold App.publish.
    destruct (Hook.onUpdate (snd (Hook.handleMouseMove containerRef st e)))
      as [[pos sz] |]; simpl; repeat split; reflexivity.
  - intros pos sz. simpl. repeat split; reflexivity.
Qed.

(** ** Further properties of the gesture controller *)

Lemma clamp_inside (lo hi v : Q) :
  lo <= v -> v <= hi -> Math_max lo (Math_min v hi) == v.
Proof.
  intros H1 H2. unfold Math_max, Math_min.
  destruct (Q.max_spec lo (Qmin v hi)) as [[A E] | [A E]];
    destruct (Q.min_spec v hi) as [[B F] | [B F]]; lra.
Qed.

Lemma clamp_monotone (lo hi v1 v2 : Q) :
  v1 <= v2 ->
  Math_max lo (Math_min v1 hi) <= Math_max lo (Math_min v2 hi).
Proof.
  intro H. unfold Math_max, Math_min.
  destruct (Q.max_spec lo (Qmin v1 hi)) as [[A1 E1] | [A1 E1]];
    destruct (Q.max_spec lo (Qmin v2 hi)) as [[A2 E2] | [A2 E2]];
    destruct (Q.min_spec v1 hi) as [[B1 F1] | [B1 F1]];
    destruct (Q.min_spec v2 hi) as [[B2 F2] | [B2 F2]]; lra.
Qed.

(** X1.  Pointer-moves that arrive when no gesture is active, in
    particular after the pointer-up that ended one, change nothing and
    publish nothing, however many they are and whatever the container
    is. *)
Theorem stray_moves_ignored
    (containerRef : option DOMRect) (st : Hook.State)
    (es : list MouseEvent) :
  moves containerRef (Hook.handleMouseUp st) es
  = (Hook.handleMouseUp st, []).
Proof.
  induction es as [| e es IH]; simpl.
  - reflexivity.
  - rewrite IH. reflexivity.
Qed.

(** X2.  The outcome of a pointer-move does not depend on the moves
    processed before it in the same gesture: processing [e1] and then
    [e2] leaves the same state and publishes the same update as
    processing [e2] alone.  In particular a repeated event changes
    nothing further. *)
Theorem last_move_wins
    (containerRef : option DOMRect) (st : Hook.State) (e1 e2 : MouseEvent) :
  Hook.handleMouseMove containerRef
    (fst (Hook.handleMouseMove containerRef st e1)) e2
  = Hook.handleMouseMove containerRef st e2.
Proof.
  destruct st as [p sz d z off cr].
  destruct d, z, cr as [r |], containerRef as [r' |]; reflexivity.
Qed.

(** X3.  Once a gesture has begun, its pointer-moves are measured
    against the rectangle captured at pointer-down, whatever the
    container reports, or whether it still exists, later on. *)
Theorem gesture_uses_cached_rect
    (rect : DOMRect) (later : option DOMRect) (st : Hook.State)
    (e0 e : MouseEvent) (type : GestureType) :
  let st1 := Hook.handleMouseDown (Some rect) st e0 type in
  Hook.handleMouseMove later st1 e = Hook.handleMouseMove (Some rect) st1 e
  /\ Hook.containerRect (fst (Hook.handleMouseMove later st1 e)) = Some rect.
Proof.
  destruct st as [p sz d z off cr].
  destruct type, d, z; split; reflexivity.
Qed.

(** X4.  Inside the container the overlay follows the pointer exactly:
    if the pointer has moved by [(dx, dy)] since the pointer-down of a
    drag and the overlay, moved by as much, still lies inside the
    container, that is the published position.  A move back to the grab
    point restores the original position. *)
Theorem drag_follows_pointer
    (rect : DOMRect) (later : option DOMRect) (st : Hook.State)
    (e0 e : MouseEvent) :
  let st1 := Hook.handleMouseDown (Some rect) st e0 drag in
  let rawX := x (Hook.position st) + (clientX e - clientX e0) in
  let rawY := y (Hook.position st) + (clientY e - clientY e0) in
  0 <= rawX -> rawX <= rect_width rect - width (Hook.size st) ->
  0 <= rawY -> rawY <= rect_height rect - height (Hook.size st) ->
  exists p,
    Hook.onUpdate (snd (Hook.handleMouseMove later st1 e))
    = Some (p, Hook.size st)
    /\ x p == rawX /\ y p == rawY.
Proof.
  cbv zeta. intros X0 X1 Y0 Y1.
  rewrite (handleMouseMove_drag later
             (Hook.handleMouseDown (Some rect) st e0 drag) e rect
             eq_refl eq_refl).
  cbv zeta. eexists. split; [reflexivity |].
  cbn [x y Hook.handleMouseDown Hook.dragOffset Hook.size].
  split; rewrite clamp_inside; lra.
Qed.

Lemma drag_follows_pointer_witness :
  let st1 := Hook.handleMouseDown (Some container_800x450) initial_hook
               {| clientX := 60; clientY := 70 |} drag in
  exists p,
    Hook.onUpdate (snd (Hook.handleMouseMove None st1
                          {| clientX := 360; clientY := 170 |}))
    = Some (p, {| width := 200; height := 200 |})
    /\ x p == 350 /\ y p == 150.
Proof.
  cbv zeta.
  destruct (drag_follows_pointer container_800x450 None initial_hook
              {| clientX := 60; clientY := 70 |}
              {| clientX := 360; clientY := 170 |})
    as [p [H1 [H2 H3]]]; try (vm_compute; discriminate).
  exists p. split; [exact H1 |]. split.
  - rewrite H2. reflexivity.
  - rewrite H3. reflexivity.
Defined.

(** X5.  A drag is monotone in the pointer: of two pointer positions
    processed from the same state, the one further right (further down)
    never gives a position further left (further up). *)
Theorem drag_monotone
    (containerRef : option DOMRect) (st : Hook.State) (e1 e2 : MouseEvent)
    (r : DOMRect) :
  Hook.isDragging st = true ->
  Hook.resolveRect containerRef st = Some r ->
  let p1 := Hook.position (fst (Hook.handleMouseMove containerRef st e1)) in
  let p2 := Hook.position (fst (Hook.handleMouseMove containerRef st e2)) in
  (clientX e1 <= clientX e2 -> x p1 <= x p2)
  /\ (clientY e1 <= clientY e2 -> y p1 <= y p2).
Proof.
  intros Hd Hr. cbv zeta.
  rewrite !(handleMouseMove_drag containerRef st _ r Hd Hr).
  cbv zeta. cbn [fst Hook.position x y].
  split; intro H; apply clamp_monotone; lra.
Qed.

Lemma drag_monotone_witness :
  let st := Hook.handleMouseDown (Some container_800x450) initial_hook
              {| clientX := 60; clientY := 70 |} drag in
  let p1 := Hook.position
              (fst (Hook.handleMouseMove None st
                      {| clientX := 100; clientY := 900 |})) in
  let p2 := Hook.position
              (fst (Hook.handleMouseMove None st
                      {| clientX := 300; clientY := -5 |})) in
  x p1 <= x p2.
Proof.
  cbv zeta.
  apply (proj1 (drag_monotone None
                  (Hook.handleMouseDown (Some container_800x450) initial_hook
                     {| clientX := 60; clientY := 70 |} drag)
                  {| clientX := 100; clientY := 900 |}
                  {| clientX := 300; clientY := -5 |}
                  container_800x450 eq_refl eq_refl)).
  vm_compute. discriminate.
Defined.

Lemma resize_axis_monotone (p bound v1 v2 : Q) :
  v1 <= v2 ->
  let d1 := Math_max MIN_SIZE (Math_min v1 MAX_SIZE) in
  let d2 := Math_max MIN_SIZE (Math_min v2 MAX_SIZE) in
  (if Qgtb (p + d1) bound then bound - p else d1)
  <= (if Qgtb (p + d2) bound then bound - p else d2).
Proof.
  intros H d1 d2.
  pose proof (clamp_monotone MIN_SIZE MAX_SIZE v1 v2 H) as M.
  fold d1 d2 in M.
  destruct (Qgtb (p + d1) bound) eqn:G1;
    destruct (Qgtb (p + d2) bound) eqn:G2;
    try apply Qgtb_true in G1; try apply Qgtb_false in G1;
    try apply Qgtb_true in G2; try apply Qgtb_false in G2; lra.
Qed.

(** X6.  A resize is monotone in the pointer: of two pointer positions
    processed from the same state, the one further right (further down)
    never gives the smaller width (height). *)
Theorem resize_monotone
    (containerRef : option DOMRect) (st : Hook.State) (e1 e2 : MouseEvent)
    (r : DOMRect) :
  Hook.isDragging st = false ->
  Hook.isResizing st = true ->
  Hook.resolveRect containerRef st = Some r ->
  let s1 := Hook.size (fst (Hook.handleMouseMove containerRef st e1)) in
  let s2 := Hook.size (fst (Hook.handleMouseMove containerRef st e2)) in
  (clientX e1 <= clientX e2 -> width s1 <= width s2)
  /\ (clientY e1 <= clientY e2 -> height s1 <= height s2).
Proof.
  intros Hd Hz Hr. cbv zeta.
  rewrite !(handleMouseMove_resize containerRef st _ r Hd Hz Hr).
  cbv zeta. cbn [fst Hook.size width height].
  split; intro H; apply resize_axis_monotone; lra.
Qed.

Lemma resize_monotone_witness :
  let st := Hook.handleMouseDown (Some container_800x450) initial_hook
              {| clientX := 250; clientY := 250 |} resize in
  let s1 := Hook.size
              (fst (Hook.handleMouseMove None st
                      {| clientX := 10; clientY := 900 |})) in
  let s2 := Hook.size
              (fst (Hook.handleMouseMove None st
                      {| clientX := 2000; clientY := -5 |})) in
  width s1 <= width s2.
Proof.
  cbv zeta.
  apply (proj1 (resize_monotone None
                  (Hook.handleMouseDown (Some container_800x450) initial_hook
                     {| clientX := 250; clientY := 250 |} resize)
                  {| clientX := 10; clientY := 900 |}
                  {| clientX := 2000; clientY := -5 |}
                  container_800x450 eq_refl eq_refl eq_refl)).
  vm_compute. discriminate.
Defined.

(** X7.  The hook and the configuration store stay in step: if the
    hook's position and size are those of the overlay configuration,
    they still are after a pointer-move has been processed and its
    update published, so that the effects which copy the configuration
    back into the hook leave it as it is. *)
Theorem hook_config_in_step
    (containerRef : option DOMRect) (st : Hook.State) (e : MouseEvent)
    (s : App.State) :
  Hook.position st = position (App.overlayConfig s) ->
  Hook.size st = size (App.overlayConfig s) ->
  let st' := fst (Hook.handleMouseMove containerRef st e) in
  let s' := App.publish (snd (Hook.handleMouseMove containerRef st e)) s in
  Hook.position st' = position (App.overlayConfig s')
  /\ Hook.size st' = size (App.overlayConfig s')
  /\ syncSize (size (App.overlayConfig s'))
       (syncPosition (position (App.overlayConfig s')) st')
     = st'.
Proof.
  intros Hp Hs. cbv zeta.
  destruct st as [p sz d z off cr]. simpl in Hp, Hs. subst p sz.
  destruct d, z, cr as [r |], containerRef as [r' |]; simpl;
    repeat split; reflexivity.
Qed.

Lemma hook_config_in_step_witness :
  let st := Hook.handleMouseDown (Some container_800x450) initial_hook
              {| clientX := 60; clientY := 60 |} drag in
  let e := {| clientX := 400; clientY := 90 |} in
  Hook.position (fst (Hook.handleMouseMove None st e))
  = position (App.overlayConfig
                (App.publish (snd (Hook.handleMouseMove None st e))
                   App.init)).
Proof.
  cbv zeta.
  exact (proj1 (hook_config_in_step None
                  (Hook.handleMouseDown (Some container_800x450) initial_hook
                     {| clientX := 60; clientY := 60 |} drag)
                  {| clientX := 400; clientY := 90 |}
                  App.init eq_refl eq_refl)).
Defined.

Lemma moves_drag (later : option DOMRect) (r : DOMRect) (es : list MouseEvent) :
  forall st,
    Hook.isDragging st = true ->
    Hook.containerRect st = Some r ->
    width (Hook.size st) <= rect_width r ->
    height (Hook.size st) <= rect_height r ->
    List.length (snd (moves later st es)) = List.length es
    /\ Forall (fun u => snd u = Hook.size st
                        /\ drag_within_container r (fst u) (snd u))
              (snd (moves later st es))
    /\ Hook.size (fst (moves later st es)) = Hook.size st.
Proof.
  induction es as [| e es IH]; intros st Hd Hc Hw Hh; simpl.
  - repeat split. constructor.
  - assert (Hr : Hook.resolveRect later st = Some r)
      by (unfold Hook.resolveRect; rewrite Hc; reflexivity).
    rewrite (handleMouseMove_drag later st e r Hd Hr). cbv beta iota zeta.
    match goal with
    | |- context [moves later ?st1 es] =>
      destruct (IH st1 eq_refl eq_refl Hw Hh) as [L [F S]];
      destruct (moves later st1 es) as [st2 ups]
    end.
    simpl in *. split; [congruence |]. split; [| exact S].
    constructor; [| exact F].
    simpl. split; [reflexivity |].
    unfold drag_within_container; cbn [x y].
    split; apply clamp_range; lra.
Qed.

(** X8.  Throughout a drag that begins with a pointer-down in a
    container at least as large as the overlay, every pointer-move
    publishes exactly one update (there is no batching), each with the
    size unchanged and a position that keeps the overlay inside the
    container. *)
Theorem drag_gesture_within_container
    (rect : DOMRect) (later : option DOMRect) (st : Hook.State)
    (e0 : MouseEvent) (es : list MouseEvent) :
  width (Hook.size st) <= rect_width rect ->
  height (Hook.size st) <= rect_height rect ->
  let ups := snd (moves later
                    (Hook.handleMouseDown (Some rect) st e0 drag) es) in
  List.length ups = List.length es
  /\ Forall (fun u => snd u = Hook.size st
                      /\ drag_within_container rect (fst u) (snd u)) ups.
Proof.
  intros Hw Hh. cbv zeta.
  destruct (moves_drag later rect es
              (Hook.handleMouseDown (Some rect) st e0 drag)
              eq_refl eq_refl Hw Hh) as [L [F _]].
  split; assumption.
Qed.

Lemma drag_gesture_within_container_witness :
  let ups := snd (moves None
                    (Hook.handleMouseDown (Some container_800x450)
                       initial_hook {| clientX := 60; clientY := 60 |} drag)
                    [{| clientX := 5000; clientY := 0 |};
                     {| clientX := -30; clientY := 700 |}]) in
  List.length ups = 2%nat
  /\ Forall (fun u => snd u = {| width := 200; height := 200 |}
                      /\ drag_within_container container_800x450
                           (fst u) (snd u)) ups.
Proof.
  cbv zeta.
  apply (drag_gesture_within_container container_800x450 None initial_hook
           {| clientX := 60; clientY := 60 |}
           [{| clientX := 5000; clientY := 0 |};
            {| clientX := -30; clientY := 700 |}]);
    vm_compute; discriminate.
Defined.

(** X9.  Resizing and dragging compose: an overlay whose position has
    non-negative coordinates comes out of a resize move no larger than
    the container, so that every move of a drag begun afterwards in the
    same container publishes a position with
    [0 <= x <= containerWidth - width] and
    [0 <= y <= containerHeight - height]. *)
Theorem resize_then_drag
    (rect : DOMRect) (later : option DOMRect) (st : Hook.State)
    (e1 e0 e2 : MouseEvent) :
  Hook.isDragging st = false ->
  Hook.isResizing st = true ->
  Hook.containerRect st = Some rect ->
  0 <= x (Hook.position st) ->
  0 <= y (Hook.position st) ->
  let st1 := fst (Hook.handleMouseMove later st e1) in
  let st2 := Hook.handleMouseDown (Some rect) (Hook.handleMouseUp st1)
               e0 drag in
  (width (Hook.size st1) <= rect_width rect
   /\ height (Hook.size st1) <= rect_height rect)
  /\ exists p,
       Hook.onUpdate (snd (Hook.handleMouseMove later st2 e2))
       = Some (p, Hook.size st1)
       /\ drag_within_container rect p (Hook.size st1).
Proof.
  intros Hd Hz Hc X0 Y0. cbv zeta.
  assert (Hr : Hook.resolveRect later st = Some rect)
    by (unfold Hook.resolveRect; rewrite Hc; reflexivity).
  rewrite (handleMouseMove_resize later st e1 rect Hd Hz Hr). cbv zeta.
  cbn [fst Hook.size width height].
  destruct (resize_axis (x (Hook.position st)) (rect_width rect)
              (clientX e1 - (rect_left rect + x (Hook.position st))))
    as [_ [W _]].
  destruct (resize_axis (y (Hook.position st)) (rect_height rect)
              (clientY e1 - (rect_top rect + y (Hook.position st))))
    as [_ [H _]].
  cbv zeta in W, H.
  split; [split; lra |].
  match goal with
  | |- context [Hook.handleMouseMove later ?s2 e2] =>
    rewrite (handleMouseMove_drag later s2 e2 rect eq_refl eq_refl)
  end.
  cbv zeta. eexists. split; [reflexivity |].
  unfold drag_within_container.
  cbn [x y width height Hook.size Hook.handleMouseDown Hook.handleMouseUp].
  split; apply clamp_range; lra.
Qed.

Lemma resize_then_drag_witness :
  let st := Hook.handleMouseDown (Some container_800x450) initial_hook
              {| clientX := 250; clientY := 250 |} resize in
  let st1 := fst (Hook.handleMouseMove None st
                    {| clientX := 4000; clientY := 4000 |}) in
  width (Hook.size st1) <= 800 /\ height (Hook.size st1) <= 450.
Proof.
  cbv zeta.
  apply (resize_then_drag container_800x450 None
           (Hook.handleMouseDown (Some container_800x450) initial_hook
              {| clientX := 250; clientY := 250 |} resize)
           {| clientX := 4000; clientY := 4000 |}
           {| clientX := 0; clientY := 0 |}
           {| clientX := 0; clientY := 0 |});
    solve [reflexivity | vm_compute; discriminate].
Defined.

(** ** Further properties of the compositor *)

(** X10.  Skip-frame policy: while the screen video is not decodable, a
    tick of an active renderer paints nothing and leaves the canvas and
    its context alone, but requests the next frame. *)
Theorem skip_frame_reschedules
    (containerWidth containerHeight : Q)
    (e : VideoCompositor.Env) (s : VideoCompositor.State) :
  VideoCompositor.isActive s = true ->
  (readyState (VideoCompositor.screen e) < 2)%nat ->
  let s' := fst (VideoCompositor.draw containerWidth containerHeight e s) in
  snd (VideoCompositor.draw containerWidth containerHeight e s) = []
  /\ VideoCompositor.canvas_width s' = VideoCompositor.canvas_width s
  /\ VideoCompositor.canvas_height s' = VideoCompositor.canvas_height s
  /\ VideoCompositor.ctx s' = VideoCompositor.ctx s
  /\ VideoCompositor.isActive s' = true
  /\ VideoCompositor.raf_pending s'
     = VideoCompositor.raf_pending s ++ [VideoCompositor.raf_next s].
Proof.
  intros Ha Hs. cbv zeta. unfold VideoCompositor.draw.
  rewrite Ha. apply Nat.ltb_lt in Hs. rewrite Hs. simpl.
  repeat split. exact Ha.
Qed.

Lemma skip_frame_reschedules_witness :
  let e := {| VideoCompositor.screen :=
                {| readyState := 1; videoWidth := 0; videoHeight := 0 |};
              VideoCompositor.camera := VideoCompositor.camera example_env;
              VideoCompositor.getConfig := INITIAL_OVERLAY_CONFIG |} in
  snd (VideoCompositor.draw 800 450 e example_renderer) = []
  /\ VideoCompositor.raf_pending
       (fst (VideoCompositor.draw 800 450 e example_renderer))
     = [1%positive; 2%positive].
Proof.
  cbv zeta.
  destruct (skip_frame_reschedules 800 450
              {| VideoCompositor.screen :=
                   {| readyState := 1; videoWidth := 0; videoHeight := 0 |};
                 VideoCompositor.camera := VideoCompositor.camera example_env;
                 VideoCompositor.getConfig := INITIAL_OVERLAY_CONFIG |}
              example_renderer eq_refl)
    as [H1 [_ [_ [_ [_ H2]]]]].
  - apply Nat.ltb_lt. reflexivity.
  - split; [exact H1 | exact H2].
Defined.

Lemma frame_base_layer containerWidth containerHeight c0 e :
  exists rest,
    snd (Canvas.run (VideoCompositor.frame_cmds containerWidth
                       containerHeight e) (c0, []))
    = base_layer e (Canvas.clip (Canvas.current c0)) ++ rest
    /\ (isVisible (VideoCompositor.getConfig e)
        && (2 <=? readyState (VideoCompositor.camera e))%nat = false ->
        rest = []).
Proof.
  unfold VideoCompositor.frame_cmds, VideoCompositor.overlay_cmds.
  destruct c0 as [d st p].
  destruct (isVisible (VideoCompositor.getConfig e)
            && (2 <=? readyState (VideoCompositor.camera e))%nat).
  - destruct (shape (VideoCompositor.getConfig e));
      destruct (Qgtb (borderWidth (VideoCompositor.getConfig e)) 0);
      eexists; (split; [reflexivity | discriminate]).
  - exists []. split; reflexivity.
Qed.

(** X11.  Every composed frame begins with the base layer: the whole
    surface filled with black, then the screen frame stretched over the
    whole surface.  When the overlay is hidden or the camera frame is not
    decodable, the frame is the base layer and nothing else. *)
Theorem base_layer_first
    (containerWidth containerHeight : Q)
    (e : VideoCompositor.Env) (s : VideoCompositor.State) :
  VideoCompositor.isActive s = true ->
  (2 <= readyState (VideoCompositor.screen e))%nat ->
  exists clip rest,
    snd (VideoCompositor.draw containerWidth containerHeight e s)
    = base_layer e clip ++ rest
    /\ (isVisible (VideoCompositor.getConfig e) = false -> rest = [])
    /\ ((readyState (VideoCompositor.camera e) < 2)%nat -> rest = []).
Proof.
  intros Ha Hs.
  destruct (draw_composed containerWidth containerHeight e s Ha Hs)
    as [[c0 Hout] _].
  destruct (frame_base_layer containerWidth containerHeight c0 e)
    as [rest [Hrest Hnone]].
  exists (Canvas.clip (Canvas.current c0)), rest.
  rewrite Hout. split; [exact Hrest |]. split; intro H; apply Hnone.
  - rewrite H. reflexivity.
  - apply Nat.leb_gt in H. rewrite H. apply andb_false_r.
Qed.

Lemma base_layer_first_witness :
  exists clip rest,
    snd (VideoCompositor.draw 800 450
           (with_config (App.onWidthChange 0 INITIAL_OVERLAY_CONFIG)
              example_env)
           example_renderer)
    = base_layer example_env clip ++ rest.
Proof.
  destruct (base_layer_first 800 450
              (with_config (App.onWidthChange 0 INITIAL_OVERLAY_CONFIG)
                 example_env)
              example_renderer eq_refl)
    as [clip [rest [H _]]].
  - apply Nat.leb_le. reflexivity.
  - exists clip, rest. exact H.
Defined.

(** The context a composed frame starts from and the one it leaves. *)
Lemma draw_context containerWidth containerHeight e s :
  VideoCompositor.isActive s = true ->
  (2 <= readyState (VideoCompositor.screen e))%nat ->
  exists c0,
    VideoCompositor.ctx
      (fst (VideoCompositor.draw containerWidth containerHeight e s))
    = fst (Canvas.run (VideoCompositor.frame_cmds containerWidth
                         containerHeight e) (c0, []))
    /\ snd (VideoCompositor.draw containerWidth containerHeight e s)
       = snd (Canvas.run (VideoCompositor.frame_cmds containerWidth
                            containerHeight e) (c0, []))
    /\ (c0 = VideoCompositor.ctx s \/ c0 = Canvas.fresh).
Proof.
  intros Ha Hs.
  exists (if negb (Z.eqb (VideoCompositor.canvas_width s)
                     (videoWidth (VideoCompositor.screen e)))
             || negb (Z.eqb (VideoCompositor.canvas_height s)
                        (videoHeight (VideoCompositor.screen e)))
          then Canvas.fresh else VideoCompositor.ctx s).
  unfold VideoCompositor.draw. rewrite Ha.
  apply Nat.ltb_ge in Hs. rewrite Hs. cbv beta iota zeta. cbn [negb].
  destruct (Canvas.run _ _) as [c1 out]. cbn [fst snd VideoCompositor.ctx
    VideoCompositor.requestAnimationFrame_draw].
  split; [reflexivity |]. split; [reflexivity |].
  destruct (negb _ || negb _); auto.
Qed.

(** [save()] and [restore()] are balanced in a frame. *)
Lemma frame_context_balanced containerWidth containerHeight c0 e :
  let c1 := fst (Canvas.run (VideoCompositor.frame_cmds containerWidth
                               containerHeight e) (c0, [])) in
  Canvas.stack c1 = Canvas.stack c0
  /\ Canvas.clip (Canvas.current c1) = Canvas.clip (Canvas.current c0)
  /\ Canvas.strokeStyle (Canvas.current c1)
     = Canvas.strokeStyle (Canvas.current c0)
  /\ Canvas.lineWidth (Canvas.current c1)
     = Canvas.lineWidth (Canvas.current c0).
Proof.
  unfold VideoCompositor.frame_cmds, VideoCompositor.overlay_cmds.
  destruct c0 as [d st p].
  destruct (isVisible (VideoCompositor.getConfig e)
            && (2 <=? readyState (VideoCompositor.camera e))%nat).
  - destruct (shape (VideoCompositor.getConfig e));
      destruct (Qgtb (borderWidth (VideoCompositor.getConfig e)) 0);
      repeat split; reflexivity.
  - repeat split; reflexivity.
Qed.

Lemma draw_unclipped containerWidth containerHeight e s :
  unclipped s ->
  unclipped (fst (VideoCompositor.draw containerWidth containerHeight e s)).
Proof.
  intros [Hst Hcl].
  destruct (VideoCompositor.isActive s) eqn:Ha.
  - destruct (Nat.ltb_spec (readyState (VideoCompositor.screen e)) 2)
      as [Hs | Hs].
    + unfold VideoCompositor.draw. rewrite Ha.
      apply Nat.ltb_lt in Hs. rewrite Hs. split; assumption.
    + destruct (draw_context containerWidth containerHeight e s Ha Hs)
        as [c0 [Hc [_ H0]]].
      destruct (frame_context_balanced containerWidth containerHeight c0 e)
        as [B1 [B2 _]].
      unfold unclipped. rewrite Hc, B1, B2.
      destruct H0 as [-> | ->]; [split; assumption | split; reflexivity].
  - rewrite (draw_inactive containerWidth containerHeight e s Ha).
    split; assumption.
Qed.

Lemma animationFrame_unclipped containerWidth containerHeight e s :
  unclipped s ->
  unclipped (fst (fst (VideoCompositor.animationFrame containerWidth
                         containerHeight e s))).
Proof.
  intro H. unfold VideoCompositor.animationFrame. cbv zeta.
  cbn [fst].
  match goal with
  | |- context [fold_left ?f (VideoCompositor.raf_pending s) (?s0, ?o)] =>
    assert (G : forall hs a, unclipped (fst a) ->
                             unclipped (fst (fold_left f hs a)))
  end.
  { induction hs as [| h hs IH]; intros a Ha; simpl; [exact Ha |].
    apply IH.
    pose proof (draw_unclipped containerWidth containerHeight e (fst a) Ha)
      as D.
    destruct (VideoCompositor.draw containerWidth containerHeight e (fst a)).
    exact D. }
  apply G. exact H.
Qed.

(** X12.  The clipping region and the stack of saved drawing states do
    not accumulate: for a renderer started once on a new compositor they
    are empty after the start and after every animation frame, whatever
    shapes and border widths the frames were drawn with. *)
Theorem clip_never_accumulates
    (containerWidth containerHeight : Q) (w h : Z) (n : positive)
    (e0 : VideoCompositor.Env) (es : list VideoCompositor.Env) :
  let s := frames containerWidth containerHeight es
             (fst (VideoCompositor.start containerWidth containerHeight e0
                     (VideoCompositor.new w h n))) in
  Canvas.stack (VideoCompositor.ctx s) = []
  /\ Canvas.clip (Canvas.current (VideoCompositor.ctx s)) = [].
Proof.
  cbv zeta.
  assert (F : forall es s, unclipped s ->
                unclipped (frames containerWidth containerHeight es s)).
  { clear es. induction es as [| e es IH]; intros s H; simpl; [exact H |].
    apply IH, animationFrame_unclipped, H. }
  apply F. unfold VideoCompositor.start. apply draw_unclipped.
  split; reflexivity.
Qed.

Lemma frame_camera_clips containerWidth containerHeight c0 e :
  isVisible (VideoCompositor.getConfig e) = true ->
  (2 <= readyState (VideoCompositor.camera e))%nat ->
  camera_clips
    (snd (Canvas.run (VideoCompositor.frame_cmds containerWidth
                        containerHeight e) (c0, [])))
  = [match shape (VideoCompositor.getConfig e) with
     | circle =>
       let d := destination_rect
                  (inject_Z (videoWidth (VideoCompositor.screen e)))
                  (inject_Z (videoHeight (VideoCompositor.screen e)))
                  containerWidth containerHeight
                  (position (VideoCompositor.getConfig e))
                  (size (VideoCompositor.getConfig e)) in
       [EllipseArc (rect_x d + rect_w d / 2) (rect_y d + rect_h d / 2)
                   (rect_w d / 2) (rect_h d / 2)]
       :: Canvas.clip (Canvas.current c0)
     | rectangle => Canvas.clip (Canvas.current c0)
     end].
Proof.
  intros Hv Hc. apply Nat.leb_le in Hc.
  unfold VideoCompositor.frame_cmds, VideoCompositor.overlay_cmds.
  rewrite Hv, Hc. destruct c0 as [d st p].
  destruct (shape (VideoCompositor.getConfig e));
    destruct (Qgtb (borderWidth (VideoCompositor.getConfig e)) 0);
    reflexivity.
Qed.

(** X13.  Shape clipping: on a frame in which the overlay is drawn by a
    renderer without a clipping region of its own, the camera image of a
    circle overlay is clipped to the ellipse inscribed in the destination
    rectangle, and that of a rectangle overlay is not clipped at all. *)
Theorem camera_clipped_to_shape
    (containerWidth containerHeight : Q)
    (e : VideoCompositor.Env) (s : VideoCompositor.State) :
  draws_overlay e s ->
  Canvas.clip (Canvas.current (VideoCompositor.ctx s)) = [] ->
  let d := destination_rect
             (inject_Z (videoWidth (VideoCompositor.screen e)))
             (inject_Z (videoHeight (VideoCompositor.screen e)))
             containerWidth containerHeight
             (position (VideoCompositor.getConfig e))
             (size (VideoCompositor.getConfig e)) in
  camera_clips (snd (VideoCompositor.draw containerWidth containerHeight e s))
  = [match shape (VideoCompositor.getConfig e) with
     | circle =>
       [[EllipseArc (rect_x d + rect_w d / 2) (rect_y d + rect_h d / 2)
                    (rect_w d / 2) (rect_h d / 2)]]
     | rectangle => []
     end].
Proof.
  intros [Ha [Hs [Hv Hc]]] Hclip. cbv zeta.
  destruct (draw_context containerWidth containerHeight e s Ha Hs)
    as [c0 [_ [Hout H0]]].
  rewrite Hout, (frame_camera_clips _ _ c0 e Hv Hc).
  assert (E : Canvas.clip (Canvas.current c0) = [])
    by (destruct H0 as [-> | ->]; [exact Hclip | reflexivity]).
  rewrite E. reflexivity.
Qed.

Lemma camera_clipped_to_shape_witness :
  camera_clips (snd (VideoCompositor.draw 800 450 example_env
                       example_renderer))
  = [[[EllipseArc (50 * (1920 / 800) + 200 * (1920 / 800) / 2)
                  (50 * (1080 / 450) + 200 * (1080 / 450) / 2)
                  (200 * (1920 / 800) / 2) (200 * (1080 / 450) / 2)]]].
Proof.
  exact (camera_clipped_to_shape 800 450 example_env example_renderer
           example_draws_overlay eq_refl).
Defined.

Lemma Qdiv_by_ge_1 (a z : Q) :
  0 <= a -> 1 <= z ->
  0 <= a / z /\ a / z <= a /\ (z == 1 -> a / z == a).
Proof.
  intros Ha Hz.
  assert (Hnz : ~ z == 0) by lra.
  pose proof (Qmult_div_r a z Hnz) as E.
  assert (P : 0 <= a / z).
  { unfold Qdiv. apply Qmult_le_0_compat; [exact Ha |].
    apply Qlt_le_weak, Qinv_lt_0_compat. lra. }
  set (q := a / z) in *.
  split; [exact P |]. split.
  - nra.
  - intro H1. nra.
Qed.

Lemma zoom_crop_inside (nativeW nativeH zoomLevel : Q) :
  0 <= nativeW -> 0 <= nativeH ->
  let c := zoom_crop nativeW nativeH zoomLevel in
  (0 <= rect_x c /\ 0 <= rect_w c /\ rect_x c + rect_w c <= nativeW)
  /\ (0 <= rect_y c /\ 0 <= rect_h c /\ rect_y c + rect_h c <= nativeH)
  /\ rect_x c + rect_w c / 2 == nativeW / 2
  /\ rect_y c + rect_h c / 2 == nativeH / 2
  /\ (zoomLevel <= 1 ->
      rect_x c == 0 /\ rect_y c == 0
      /\ rect_w c == nativeW /\ rect_h c == nativeH).
Proof.
  intros HW HH. unfold zoom_crop. cbv zeta. cbn [rect_x rect_y rect_w rect_h].
  set (zoom := Qmax 1 zoomLevel).
  assert (Hz : 1 <= zoom) by apply Q.le_max_l.
  destruct (Qdiv_by_ge_1 nativeW zoom HW Hz) as [W0 [W1 W2]].
  destruct (Qdiv_by_ge_1 nativeH zoom HH Hz) as [H0 [H1 H2]].
  set (cw := nativeW / zoom) in *. set (ch := nativeH / zoom) in *.
  unfold Qdiv. change (/ 2) with (1 # 2).
  split; [| split; [| split; [| split]]].
  - repeat split; lra.
  - repeat split; lra.
  - lra.
  - lra.
  - intro Hle.
    assert (Z1 : zoom == 1) by (unfold zoom; apply Q.max_l; exact Hle).
    specialize (W2 Z1). specialize (H2 Z1).
    repeat split; lra.
Qed.

(** X14.  On every frame in which the overlay is drawn, the source crop
    lies inside the camera's native frame and is centred in it; a zoom
    level of at most 1 selects the whole native frame. *)
Theorem crop_inside_native_frame
    (containerWidth containerHeight : Q)
    (e : VideoCompositor.Env) (s : VideoCompositor.State) :
  draws_overlay e s ->
  (0 <= videoWidth (VideoCompositor.camera e))%Z ->
  (0 <= videoHeight (VideoCompositor.camera e))%Z ->
  let nativeW := inject_Z (videoWidth (VideoCompositor.camera e)) in
  let nativeH := inject_Z (videoHeight (VideoCompositor.camera e)) in
  exists crop dst,
    camera_images
      (snd (VideoCompositor.draw containerWidth containerHeight e s))
    = [(Some crop, dst)]
    /\ (0 <= rect_x crop /\ 0 <= rect_w crop
        /\ rect_x crop + rect_w crop <= nativeW)
    /\ (0 <= rect_y crop /\ 0 <= rect_h crop
        /\ rect_y crop + rect_h crop <= nativeH)
    /\ rect_x crop + rect_w crop / 2 == nativeW / 2
    /\ rect_y crop + rect_h crop / 2 == nativeH / 2
    /\ (zoomLevel (VideoCompositor.getConfig e) <= 1 ->
        rect_x crop == 0 /\ rect_y crop == 0
        /\ rect_w crop == nativeW /\ rect_h crop == nativeH).
Proof.
  intros [Ha [Hs [Hv Hc]]] HW HH. cbv zeta.
  destruct (draw_composed containerWidth containerHeight e s Ha Hs)
    as [[c0 Hout] _].
  rewrite Hout, (frame_camera_images _ _ c0 e Hv Hc).
  eexists. eexists. split; [reflexivity |].
  apply zoom_crop_inside.
  - change 0 with (inject_Z 0). rewrite <- Zle_Qle. exact HW.
  - change 0 with (inject_Z 0). rewrite <- Zle_Qle. exact HH.
Qed.

Lemma crop_inside_native_frame_witness :
  exists crop dst,
    camera_images (snd (VideoCompositor.draw 800 450 example_env
                          example_renderer))
    = [(Some crop, dst)]
    /\ rect_x crop + rect_w crop <= 1280.
Proof.
  destruct (crop_inside_native_frame 800 450 example_env example_renderer
              example_draws_overlay)
    as [crop [dst [H1 [[_ [_ H2]] _]]]];
    try (vm_compute; discriminate).
  exists crop, dst. split; [exact H1 | exact H2].
Defined.




(** *** The frame loop *)

Lemma draw_active_next containerWidth containerHeight e s :
  VideoCompositor.isActive s = true ->
  VideoCompositor.raf_next
    (fst (VideoCompositor.draw containerWidth containerHeight e s))
  = Pos.succ (VideoCompositor.raf_next s).
Proof.
  intro H. unfold VideoCompositor.draw. rewrite H. simpl.
  destruct (readyState (VideoCompositor.screen e) <? 2)%nat.
  - reflexivity.
  - destruct (Canvas.run _ _) as [c1 out]. reflexivity.
Qed.

Lemma start_one_fresh_pending containerWidth containerHeight e w h n :
  one_fresh_pending
    (fst (VideoCompositor.start containerWidth containerHeight e
            (VideoCompositor.new w h n))).
Proof.
  unfold VideoCompositor.start.
  destruct (draw_active containerWidth containerHeight e
              (VideoCompositor.set_isActive true (VideoCompositor.new w h n))
              eq_refl) as [Ha [Hp Hi]].
  pose proof (draw_active_next containerWidth containerHeight e
                (VideoCompositor.set_isActive true
                   (VideoCompositor.new w h n)) eq_refl) as Hn.
  cbv zeta in Ha, Hp, Hi.
  split; [exact Ha |]. exists n. rewrite Hp, Hi, Hn. simpl.
  repeat split. apply Pos.lt_succ_diag_r.
Qed.

Lemma animationFrame_one_fresh_pending containerWidth containerHeight e s :
  one_fresh_pending s ->
  one_fresh_pending
    (fst (fst (VideoCompositor.animationFrame containerWidth
                 containerHeight e s)))
  /\ snd (VideoCompositor.animationFrame containerWidth containerHeight e s)
     = 1%nat.
Proof.
  intros [Ha [h [Hp [Hi Hlt]]]]. unfold VideoCompositor.animationFrame.
  rewrite Hp. simpl.
  match goal with
  | |- context [VideoCompositor.draw _ _ e ?s0] =>
    destruct (draw_active containerWidth containerHeight e s0 Ha)
      as [Ha' [Hp' Hi']];
    pose proof (draw_active_next containerWidth containerHeight e s0 Ha)
      as Hn';
    cbv zeta in Ha', Hp', Hi';
    destruct (VideoCompositor.draw containerWidth containerHeight e s0)
      as [s1 out1]
  end.
  simpl in *. split; [| reflexivity].
  split; [exact Ha' |]. eexists. rewrite Hp', Hi', Hn'.
  repeat split. apply Pos.lt_succ_diag_r.
Qed.

Lemma frames_one_fresh_pending containerWidth containerHeight es :
  forall s,
    one_fresh_pending s ->
    one_fresh_pending (frames containerWidth containerHeight es s).
Proof.
  induction es as [| e es IH]; intros s H; simpl.
  - exact H.
  - apply IH, animationFrame_one_fresh_pending, H.
Qed.

(** X16.  Ticks do not pile up: for a renderer started once on a new
    compositor, after the start and after any number of animation
    frames, whether the screen was decodable in them or not, the
    renderer is active with exactly one frame request pending, the one
    [animationFrameId] holds, and the next animation frame invokes
    [draw] exactly once. *)
Theorem one_tick_per_frame
    (containerWidth containerHeight : Q) (w h : Z) (n : positive)
    (e0 e : VideoCompositor.Env) (es : list VideoCompositor.Env) :
  let s := frames containerWidth containerHeight es
             (fst (VideoCompositor.start containerWidth containerHeight e0
                     (VideoCompositor.new w h n))) in
  VideoCompositor.isActive s = true
  /\ (exists k, VideoCompositor.raf_pending s = [k]
                /\ VideoCompositor.animationFrameId s = Some k)
  /\ snd (VideoCompositor.animationFrame containerWidth containerHeight e s)
     = 1%nat.
Proof.
  cbv zeta.
  pose proof (frames_one_fresh_pending containerWidth containerHeight es _
                (start_one_fresh_pending containerWidth containerHeight
                   e0 w h n)) as H.
  destruct (animationFrame_one_fresh_pending containerWidth containerHeight
              e _ H) as [_ C].
  destruct H as [Ha [k [Hp [Hi _]]]].
  split; [exact Ha |]. split; [| exact C].
  exists k. split; assumption.
Qed.

Lemma filter_idempotent {A : Type} (f : A -> bool) (l : list A) :
  filter f (filter f l) = filter f l.
Proof.
  induction l as [| a l IH]; simpl; [reflexivity |].
  destruct (f a) eqn:E; simpl; [rewrite E, IH |]; auto.
Qed.

(** X17.  [stop()] is idempotent, and on a compositor that was never
    started it changes nothing. *)
Theorem stop_idempotent (s : VideoCompositor.State) (w h : Z) (n : positive) :
  VideoCompositor.stop (VideoCompositor.stop s) = VideoCompositor.stop s
  /\ VideoCompositor.stop (VideoCompositor.new w h n)
     = VideoCompositor.new w h n.
Proof.
  split; [| reflexivity].
  destruct s as [cw ch c id a nx p].
  destruct id as [k |]; [| reflexivity].
  unfold VideoCompositor.stop, VideoCompositor.cancelAnimationFrame,
    VideoCompositor.set_isActive.
  cbn [VideoCompositor.animationFrameId VideoCompositor.raf_pending
       VideoCompositor.canvas_width VideoCompositor.canvas_height
       VideoCompositor.ctx VideoCompositor.isActive
       VideoCompositor.raf_next].
  rewrite filter_idempotent. reflexivity.
Qed.

(** X18.  A second [start()] without a [stop()] in between leaves two
    frame requests pending; [stop()] then cancels only the later one.
    The tick of the earlier request still runs in the next animation
    frame, observes the inactive flag, paints nothing and requests
    nothing, after which no request is pending. *)
Theorem second_start_leaves_orphan
    (containerWidth containerHeight : Q) (w h : Z) (n : positive)
    (e0 e1 e : VideoCompositor.Env) (es : list VideoCompositor.Env) :
  let s := frames containerWidth containerHeight es
             (fst (VideoCompositor.start containerWidth containerHeight e0
                     (VideoCompositor.new w h n))) in
  let twice :=
    fst (VideoCompositor.start containerWidth containerHeight e1 s) in
  let next := VideoCompositor.animationFrame containerWidth containerHeight
                e (VideoCompositor.stop twice) in
  List.length (VideoCompositor.raf_pending twice) = 2%nat
  /\ VideoCompositor.raf_pending (VideoCompositor.stop twice)
     = VideoCompositor.raf_pending s
  /\ snd next = 1%nat
  /\ snd (fst next) = []
  /\ VideoCompositor.raf_pending (fst (fst next)) = [].
Proof.
  cbv zeta.
  pose proof (frames_one_fresh_pending containerWidth containerHeight es _
                (start_one_fresh_pending containerWidth containerHeight
                   e0 w h n)) as H.
  set (s := frames containerWidth containerHeight es _) in *.
  destruct H as [Ha [k [Hp [Hi Hlt]]]].
  assert (Hs : VideoCompositor.set_isActive true s = s)
    by (destruct s; simpl in *; subst; reflexivity).
  unfold VideoCompositor.start. rewrite Hs.
  destruct (draw_active containerWidth containerHeight e1 s Ha)
    as [_ [Hp2 Hi2]].
  cbv zeta in Hp2, Hi2.
  set (twice := fst (VideoCompositor.draw containerWidth containerHeight
                       e1 s)) in *.
  assert (Hstop : VideoCompositor.raf_pending (VideoCompositor.stop twice)
                  = [k]).
  { unfold VideoCompositor.stop. simpl. rewrite Hi2. simpl.
    rewrite Hp2, Hp. simpl. rewrite Pos.eqb_refl.
    destruct (Pos.eqb_spec k (VideoCompositor.raf_next s)) as [E | _].
    - rewrite E in Hlt. exfalso. exact (Pos.lt_irrefl _ Hlt).
    - reflexivity. }
  split; [rewrite Hp2, Hp; reflexivity |].
  split; [rewrite Hstop, Hp; reflexivity |].
  unfold VideoCompositor.animationFrame. rewrite Hstop.
  rewrite ticks_inactive by (simpl; apply stop_inactive).
  repeat split.
Qed.

(** X19.  A stopped renderer can be started again: after [stop()] and a
    new [start()], the renderer is active with exactly one frame request
    pending, as after its first start. *)
Theorem restart_after_stop
    (containerWidth containerHeight : Q) (w h : Z) (n : positive)
    (e0 e1 : VideoCompositor.Env) (es : list VideoCompositor.Env) :
  let s := frames containerWidth containerHeight es
             (fst (VideoCompositor.start containerWidth containerHeight e0
                     (VideoCompositor.new w h n))) in
  let again :=
    fst (VideoCompositor.start containerWidth containerHeight e1
           (VideoCompositor.stop s)) in
  VideoCompositor.isActive again = true
  /\ exists k, VideoCompositor.raf_pending again = [k]
               /\ VideoCompositor.animationFrameId again = Some k.
Proof.
  cbv zeta.
  pose proof (frames_one_pending containerWidth containerHeight es _
                (start_one_pending containerWidth containerHeight
                   e0 w h n)) as H.
  set (s := frames containerWidth containerHeight es _) in *.
  pose proof (stop_one_pending s H) as Hstop.
  unfold VideoCompositor.start.
  destruct (draw_active containerWidth containerHeight e1
              (VideoCompositor.set_isActive true (VideoCompositor.stop s))
              eq_refl) as [Ha [Hp Hi]].
  cbv zeta in Ha, Hp, Hi.
  split; [exact Ha |].
  exists (VideoCompositor.raf_next
            (VideoCompositor.set_isActive true (VideoCompositor.stop s))).
  split; [| exact Hi].
  rewrite Hp. simpl VideoCompositor.raf_pending at 1.
  change (VideoCompositor.raf_pending
            (VideoCompositor.set_isActive true (VideoCompositor.stop s)))
    with (VideoCompositor.raf_pending (VideoCompositor.stop s)).
  rewrite Hstop. reflexivity.
Qed.

(** ** Further properties of the configuration store *)

(** X20.  Toggling the shape twice, or the camera visibility twice,
    gives back the configuration one started from. *)
Theorem toggles_involutive (c : OverlayConfig) :
  onToggleShape (onToggleShape c) = c
  /\ onToggleCamera (onToggleCamera c) = c.
Proof.
  destruct c as [sh p sz v col bw z].
  split.
  - destruct sh; reflexivity.
  - destruct v; reflexivity.
Qed.

(** X21.  No update is lost between the two writers of the
    configuration: a position and size update of the gesture controller
    and a change made through the control surface (shape, visibility,
    border colour, border width, zoom) give the same configuration in
    either order. *)
Theorem geometry_and_controls_commute
    (pos : Position) (sz : Size) (color : string) (w zoom : Q)
    (s : App.State) :
  let update := App.updateOverlayConfig pos sz in
  setOverlayConfig onToggleShape (update s)
  = update (setOverlayConfig onToggleShape s)
  /\ setOverlayConfig onToggleCamera (update s)
     = update (setOverlayConfig onToggleCamera s)
  /\ setOverlayConfig (onColorChange color) (update s)
     = update (setOverlayConfig (onColorChange color) s)
  /\ setOverlayConfig (App.onWidthChange w) (update s)
     = update (setOverlayConfig (App.onWidthChange w) s)
  /\ setOverlayConfig (onZoomChange zoom) (update s)
     = update (setOverlayConfig (onZoomChange zoom) s).
Proof. cbv zeta. repeat split; reflexivity. Qed.

(** ** Further properties of the recording session *)

Lemma encoded_all_live (ds : list (list Byte.byte)) :
  forall s r,
    App.mediaRecorderRef s = Some r ->
    MediaRecorder.state (App.recorder r) = MediaRecorder.recording ->
    encoded_all ds s
    = App.set_mediaRecorderRef
        (Some {| App.recorder :=
                   {| MediaRecorder.state := MediaRecorder.recording;
                      MediaRecorder.gathered :=
                        MediaRecorder.gathered (App.recorder r)
                        ++ List.concat ds;
                      MediaRecorder.tasks :=
                        MediaRecorder.tasks (App.recorder r) |};
                 App.chunks := App.chunks r |}) s.
Proof.
  unfold encoded_all.
  induction ds as [| d ds IH]; intros s r Hr Hs; simpl.
  - rewrite app_nil_r. destruct s, r as [[st g t] ch]; simpl in *.
    subst. reflexivity.
  - assert (H1 : App.mediaRecorderRef (App.encoded d s)
                 = Some {| App.recorder :=
                             {| MediaRecorder.state := MediaRecorder.recording;
                                MediaRecorder.gathered :=
                                  MediaRecorder.gathered (App.recorder r) ++ d;
                                MediaRecorder.tasks :=
                                  MediaRecorder.tasks (App.recorder r) |};
                           App.chunks := App.chunks r |}).
    { unfold App.encoded. rewrite Hr. unfold MediaRecorder.encode.
      rewrite Hs. reflexivity. }
    rewrite (IH _ _ H1 eq_refl). simpl. rewrite <- app_assoc.
    unfold App.encoded. rewrite Hr. reflexivity.
Qed.

(** X22.  A whole recording: after a successful start, whatever the
    encoder produces, one stop request followed by the delivery of the
    recorder's events leaves the session idle and not recording, with an
    artifact of the recording MIME type whose bytes are the encoder's
    output in order.  Nothing of an earlier recording enters it. *)
Theorem recording_lifecycle (s : App.State) (ds : list (list Byte.byte)) :
  let live := encoded_all ds (App.handleStartRecording None s) in
  let idle := App.runTasks (App.handleStopRecording live) in
  App.phase live = App.Live
  /\ App.phase (App.handleStopRecording live) = App.Stopping
  /\ App.recordedBlob idle
     = Some {| blob_bytes := List.concat ds;
               blob_type := RECORDING_MIME_TYPE |}
  /\ App.isRecording idle = false
  /\ App.phase idle = App.Idle.
Proof.
  cbv zeta.
  rewrite (encoded_all_live ds (App.handleStartRecording None s) _
             eq_refl eq_refl).
  cbn [App.handleStartRecording App.recorder App.chunks MediaRecorder.start
       MediaRecorder.new MediaRecorder.state MediaRecorder.gathered
       MediaRecorder.tasks app].
  split; [reflexivity |]. split; [reflexivity |].
  unfold App.runTasks, App.handleStopRecording. simpl.
  unfold App.ondataavailable, blob_size. simpl.
  destruct (List.concat ds) as [| b bs] eqn:E; simpl.
  - repeat split.
  - unfold new_Blob. simpl. rewrite app_nil_r. repeat split.
Qed.

Lemma dispatch_all (q : list MediaRecorder.Event) :
  forall s r,
    App.mediaRecorderRef s = Some r ->
    let s' := fold_left (fun acc ev => App.dispatch ev acc) q s in
    (exists ch, App.mediaRecorderRef s'
                = Some {| App.recorder := App.recorder r; App.chunks := ch |})
    /\ (existsb App.is_stopped q = true ->
        App.isRecording s' = false /\ App.recordedBlob s' <> None)
    /\ (existsb App.is_stopped q = false ->
        App.isRecording s' = App.isRecording s
        /\ App.recordedBlob s' = App.recordedBlob s).
Proof.
  induction q as [| ev q IH]; intros s r Hr; cbv zeta; simpl.
  - split; [exists (App.chunks r); destruct r; exact Hr |].
    split; [discriminate | auto].
  - destruct ev as [d |]; simpl.
    + assert (H1 : App.mediaRecorderRef
                     (App.dispatch (MediaRecorder.dataavailable d) s)
                   = Some {| App.recorder := App.recorder r;
                             App.chunks :=
                               App.ondataavailable d (App.chunks r) |})
        by (unfold App.dispatch; rewrite Hr; reflexivity).
      destruct (IH _ _ H1) as [A [B C]]. cbv zeta in A, B, C.
      split; [exact A |]. split; [exact B |].
      intro F. destruct (C F) as [C1 C2].
      rewrite C1, C2. unfold App.dispatch. rewrite Hr.
      split; reflexivity.
    + assert (H1 : App.mediaRecorderRef (App.dispatch MediaRecorder.stopped s)
                   = Some r)
        by (unfold App.dispatch; rewrite Hr; simpl; exact Hr).
      destruct (IH _ _ H1) as [A [B C]]. cbv zeta in A, B, C.
      split; [destruct r; exact A |]. split; [| discriminate].
      intros _.
      destruct (existsb App.is_stopped q) eqn:F.
      * apply B. reflexivity.
      * destruct (C eq_refl) as [C1 C2]. rewrite C1, C2.
        unfold App.dispatch. rewrite Hr. split; [reflexivity | discriminate].
Qed.

Lemma filter_nonempty_existsb {A : Type} (f : A -> bool) (l : list A) n :
  List.length (filter f l) = S n -> existsb f l = true.
Proof.
  induction l as [| a l IH]; simpl; [discriminate |].
  destruct (f a); simpl; [reflexivity | exact IH].
Qed.

Lemma runTasks_stopping (s : App.State) :
  App.phase s = App.Stopping ->
  App.phase (App.runTasks s) = App.Idle
  /\ App.isRecording (App.runTasks s) = false
  /\ App.recordedBlob (App.runTasks s) <> None.
Proof.
  intro P.
  unfold App.phase, App.finalizations in P. unfold App.runTasks.
  destruct (App.mediaRecorderRef s) as [r |] eqn:R; [| discriminate].
  destruct (MediaRecorder.is_inactive (App.recorder r)) eqn:In;
    [| discriminate].
  destruct (List.length _) as [| n] eqn:L; [discriminate |].
  apply filter_nonempty_existsb in L.
  match goal with
  | |- context [fold_left ?f ?q ?s0] =>
    destruct (dispatch_all q s0 _ eq_refl) as [[ch A] [B _]]
  end.
  cbv zeta in A, B. destruct (B L) as [B1 B2].
  split; [| split; assumption].
  unfold App.phase, App.finalizations. rewrite A.
  unfold MediaRecorder.is_inactive in *. simpl.
  destruct (MediaRecorder.state (App.recorder r));
    [reflexivity | discriminate | discriminate].
Qed.

(** X23.  Every Stopping session finalizes: once the recorder's queued
    events have been delivered, the session is Idle and no longer
    recording, an artifact is available, and a further stop request is a
    no-op. *)
Theorem stopping_finalizes (s : App.State) :
  App.phase s = App.Stopping ->
  let s' := App.runTasks s in
  App.phase s' = App.Idle
  /\ App.isRecording s' = false
  /\ App.recordedBlob s' <> None
  /\ App.handleStopRecording s' = s'.
Proof.
  intro P. cbv zeta.
  destruct (runTasks_stopping s P) as [I1 [I2 I3]].
  repeat split; try assumption.
  apply handleStopRecording_not_live. rewrite I1. discriminate.
Qed.

Lemma stopping_finalizes_witness :
  let stopping :=
    App.handleStopRecording
      (App.encoded [Byte.x1a] (App.handleStartRecording None App.init)) in
  App.phase stopping = App.Stopping
  /\ App.phase (App.runTasks stopping) = App.Idle.
Proof.
  cbv zeta. split; [reflexivity |].
  exact (proj1 (stopping_finalizes
                  (App.handleStopRecording
                     (App.encoded [Byte.x1a]
                        (App.handleStartRecording None App.init)))
                  eq_refl)).
Defined.

(** ** The control bar *)

Lemma download_offered (s : App.State) :
  In ControlBar.DownloadButton (controls s)
  <-> (App.recordedBlob s <> None /\ App.isRecording s = false).
Proof.
  unfold controls, ControlBar.render, controlBarProps. simpl.
  destruct (App.recordedBlob s) as [b |];
    destruct (App.isRecording s);
    destruct (isVisible (App.overlayConfig s)); simpl;
    split; intro H;
    repeat match goal with
           | H : _ \/ _ |- _ => destruct H
           | H : _ /\ _ |- _ => destruct H
           | H : False |- _ => contradiction
           | H : _ = ControlBar.DownloadButton |- _ => discriminate H
           | H : true = false |- _ => discriminate H
           | H : None <> None |- _ => exfalso; apply H; reflexivity
           end;
    try (split; [discriminate | reflexivity]);
    auto 10.
Qed.

(** X24.  The download control is offered exactly when an artifact
    exists and the session is not recording.  Every start attempt,
    successful or not, withdraws it; a recording carried through to its
    finalization brings it back. *)
Theorem download_control
    (s : App.State) (failure : option string) (ds : list (list Byte.byte)) :
  (In ControlBar.DownloadButton (controls s)
   <-> (App.recordedBlob s <> None /\ App.isRecording s = false))
  /\ ~ In ControlBar.DownloadButton
         (controls (App.handleStartRecording failure s))
  /\ In ControlBar.DownloadButton
       (controls
          (App.runTasks
             (App.handleStopRecording
                (encoded_all ds (App.handleStartRecording None s))))).
Proof.
  split; [apply download_offered |]. split.
  - rewrite download_offered. intros [H _]. apply H.
    destruct failure; reflexivity.
  - rewrite download_offered.
    assert (P : App.phase
                  (App.handleStopRecording
                     (encoded_all ds (App.handleStartRecording None s)))
                = App.Stopping).
    { rewrite (encoded_all_live ds (App.handleStartRecording None s) _
                 eq_refl eq_refl). reflexivity. }
    destruct (runTasks_stopping _ P) as [_ [H1 H2]].
    split; assumption.
Qed.

Lemma start_stop_offered (s : App.State) :
  (In ControlBar.StartButton (controls s) <-> App.isRecording s = false)
  /\ (In ControlBar.StopButton (controls s) <-> App.isRecording s = true).
Proof.
  unfold controls, ControlBar.render, controlBarProps. simpl.
  destruct (App.recordedBlob s) as [b |];
    destruct (App.isRecording s);
    destruct (isVisible (App.overlayConfig s)); simpl;
    split; split; intro H;
    repeat match goal with
           | H : _ \/ _ |- _ => destruct H
           | H : False |- _ => contradiction
           | H : _ = ControlBar.StartButton |- _ => discriminate H
           | H : _ = ControlBar.StopButton |- _ => discriminate H
           | H : true = false |- _ => discriminate H
           | H : false = true |- _ => discriminate H
           end;
    auto.
Qed.

(** X25.  The bar follows the session: from a successful start until the
    finalization, also while the session is stopping, it offers Stop and
    not Start; once the recorder's events have been delivered it offers
    Start and not Stop. *)
Theorem start_stop_controls (s : App.State) (ds : list (list Byte.byte)) :
  let live := encoded_all ds (App.handleStartRecording None s) in
  let stopping := App.handleStopRecording live in
  let idle := App.runTasks stopping in
  (In ControlBar.StopButton (controls live)
   /\ ~ In ControlBar.StartButton (controls live))
  /\ (In ControlBar.StopButton (controls stopping)
      /\ ~ In ControlBar.StartButton (controls stopping))
  /\ (In ControlBar.StartButton (controls idle)
      /\ ~ In ControlBar.StopButton (controls idle)).
Proof.
  cbv zeta.
  assert (L : App.isRecording
                (encoded_all ds (App.handleStartRecording None s)) = true).
  { rewrite (encoded_all_live ds (App.handleStartRecording None s) _
               eq_refl eq_refl). reflexivity. }
  assert (T : App.isRecording
                (App.handleStopRecording
                   (encoded_all ds (App.handleStartRecording None s)))
              = true).
  { rewrite (encoded_all_live ds (App.handleStartRecording None s) _
               eq_refl eq_refl). reflexivity. }
  assert (P : App.phase
                (App.handleStopRecording
                   (encoded_all ds (App.handleStartRecording None s)))
              = App.Stopping).
  { rewrite (encoded_all_live ds (App.handleStartRecording None s) _
               eq_refl eq_refl). reflexivity. }
  destruct (runTasks_stopping _ P) as [_ [I _]].
  repeat split;
    try (apply start_stop_offered; assumption);
    intro H; apply start_stop_offered in H; congruence.
Qed.

(** X26.  The bar holds no state of its own: while the camera overlay is
    visible, a border colour, border width or zoom level set through its
    handlers is the value the corresponding control shows; while the
    overlay is hidden, none of the three controls is rendered and the
    shape toggle is disabled. *)
Theorem style_controls_echo
    (s : App.State) (color : string) (w zoom : Q) :
  (isVisible (App.overlayConfig s) = true ->
   In (ControlBar.ColorInput color)
      (controls (setOverlayConfig (onColorChange color) s))
   /\ In (ControlBar.WidthRange w)
         (controls (setOverlayConfig (App.onWidthChange w) s))
   /\ In (ControlBar.ZoomRange zoom)
         (controls (setOverlayConfig (onZoomChange zoom) s)))
  /\ (isVisible (App.overlayConfig s) = false ->
      In (ControlBar.ShapeToggle true) (controls s)
      /\ forall c v,
           ~ In (ControlBar.ColorInput c) (controls s)
           /\ ~ In (ControlBar.WidthRange v) (controls s)
           /\ ~ In (ControlBar.ZoomRange v) (controls s)).
Proof.
  unfold controls, ControlBar.render, controlBarProps, setOverlayConfig.
  split; intro V; simpl; rewrite V; simpl.
  - repeat split; auto 10.
  - split; [auto |]. intros c v.
    destruct (App.recordedBlob s); destruct (App.isRecording s); simpl;
      repeat split; intro H;
      repeat match goal with
             | H : _ \/ _ |- _ => destruct H
             | H : False |- _ => contradiction
             | H : _ = _ |- _ => discriminate H
             end.
Qed.

Lemma style_controls_echo_witness :
  In (ControlBar.WidthRange 7)
     (controls (setOverlayConfig (App.onWidthChange 7) App.init)).
Proof.
  exact (proj1 (proj2 (proj1 (style_controls_echo App.init ""%string 7 1)
                         eq_refl))).
Defined.
